(** * ETLR command-line client: a shallow embedding and its verified properties

    The development follows the two source modules:
    - [client.py]: [WorkflowsClient], the payload builders over [_request];
    - [main.py]: [gather_environment_variables] and the commands [list],
      [get], [delete], [deploy], [start], [stop], [status], [versions],
      [get-version] and [restore].

    Python values are embedded as the inductive type [pyval]; a Python [str]
    is a Rocq [string], read as a sequence of code points below 256 (so that
    one [ascii] is one Python character and the order on strings is the order
    Python uses; the check mark and the star of the messages stand as their
    UTF-8 bytes).  YAML and JSON documents are [pyval]s without floats: the code
    only tests such values for truthiness and passes them on.

    Everything outside the two modules is a parameter of the model: the
    process environment, the YAML parser, the file system, the HTTP server
    and the answer typed at a confirmation prompt. *)

From stdpp Require Import gmap strings list sorting pretty.
From Stdlib Require Import String Ascii ZArith.

Local Open Scope string_scope.
Local Open Scope Z_scope.

(** ** Python values *)

#[warnings="-register-all"]
Inductive pyval : Type :=
| PNone
| PBool (b : bool)
| PInt (z : Z)
| PStr (s : string)
| PList (items : list pyval)
| PDict (entries : list (string * pyval)).

(** [bool(v)]: the truth value Python gives to [v] in [if v:] and [not v]. *)
Definition truthy (v : pyval) : bool :=
  match v with
  | PNone => false
  | PBool b => b
  | PInt z => negb (z =? 0)
  | PStr s => negb (String.eqb s "")
  | PList items => match items with [] => false | _ => true end
  | PDict entries => match entries with [] => false | _ => true end
  end.

(** A CLI parameter of type [Optional[str]]. *)
Definition of_optional (o : option string) : pyval :=
  match o with
  | Some s => PStr s
  | None => PNone
  end.

(** ** Dictionaries in insertion order

    A Python [dict] keeps its keys in the order of their first insertion;
    [d[k] = v] on a key already present replaces the value in place. *)

Fixpoint dict_get {V : Type} (k : string) (d : list (string * V)) : option V :=
  match d with
  | [] => None
  | (k', v) :: d' => if String.eqb k k' then Some v else dict_get k d'
  end.

Fixpoint dict_set {V : Type} (k : string) (v : V) (d : list (string * V))
  : list (string * V) :=
  match d with
  | [] => [(k, v)]
  | (k', v') :: d' =>
      if String.eqb k k' then (k, v) :: d' else (k', v') :: dict_set k v d'
  end.

Definition dict_keys {V : Type} (d : list (string * V)) : list string :=
  map fst d.

(** ** Strings *)

(** [c in s] for a one-character [c]. *)
Fixpoint str_contains (c : ascii) (s : string) : bool :=
  match s with
  | EmptyString => false
  | String a rest => if Ascii.eqb a c then true else str_contains c rest
  end.

(** [s.split(c, 1)]: at most one split, at the first occurrence of [c]. *)
Fixpoint str_split1 (c : ascii) (s : string) : list string :=
  match s with
  | EmptyString => [EmptyString]
  | String a rest =>
      if Ascii.eqb a c then [EmptyString; rest]
      else match str_split1 c rest with
           | hd :: tl => String a hd :: tl
           | [] => [String a EmptyString]
           end
  end.

(** [sep.join(l)]. *)
Fixpoint str_join (sep : string) (l : list string) : string :=
  match l with
  | [] => ""
  | [s] => s
  | s :: rest => s ++ sep ++ str_join sep rest
  end.

(** [needle in haystack] for strings. *)
Fixpoint str_infix (needle haystack : string) : bool :=
  if String.prefix needle haystack then true
  else match haystack with
       | EmptyString => false
       | String _ rest => str_infix needle rest
       end.

(** ** Exceptions and the effect monad *)

Inductive exn : Type :=
| ClickException (message : string)
| APIError (message : pyval) (status_code : option Z) (details : pyval)
| SystemExit (code : Z)
| TypeError
| AttributeError
| ValueError
| Abort.

Inductive outcome (A : Type) : Type :=
| Return (a : A)
| Raise (e : exn).
Arguments Return {A} a.
Arguments Raise {A} e.

(** What [click.echo] prints: f-strings are kept as their pieces, so that
    [str(v)] and [json.dumps(v, indent=2)] of a value need no rendering. *)
Inductive frag : Type :=
| Lit (s : string)
| Str (v : pyval)
| Json (v : pyval).

Record echo : Type := Echo {
  to_stderr : bool;
  fg : option string;
  body : list frag
}.

(** One call of [requests.post]. *)
Record request : Type := Request {
  url : string;
  json : pyval;
  headers : list (string * string);
  timeout : Z
}.

Inductive http_result : Type :=
| RequestException (reason : string)
| Response (ok : bool) (status : Z) (text : string) (parsed : option pyval).

(** The state of one run: what was printed and what was sent, both oldest
    first, and the answers the user will still give to confirmation
    prompts. *)
Record world : Type := World {
  echoed : list echo;
  sent : list request;
  answers : list bool
}.

Definition M (A : Type) : Type := world -> outcome A * world.

Definition ret {A : Type} (a : A) : M A := fun w => (Return a, w).

Definition raise {A : Type} (e : exn) : M A := fun w => (Raise e, w).

Definition bind {A B : Type} (m : M A) (k : A -> M B) : M B :=
  fun w =>
    match m w with
    | (Return a, w') => k a w'
    | (Raise e, w') => (Raise e, w')
    end.

Declare Scope py_scope.
Delimit Scope py_scope with py.
Notation "x <- m ;; k" := (bind m (fun x => k))
  (at level 100, m at next level, right associativity) : py_scope.
Notation "m ;;; k" := (bind m (fun _ => k))
  (at level 100, right associativity) : py_scope.
Local Open Scope py_scope.

(** [try: body / except <the exceptions handler accepts>: ...]. *)
Definition try_except {A : Type} (body : M A) (handler : exn -> option (M A))
  : M A :=
  fun w =>
    match body w with
    | (Return a, w') => (Return a, w')
    | (Raise e, w') =>
        match handler e with
        | Some h => h w'
        | None => (Raise e, w')
        end
    end.

Definition lift {A : Type} (o : outcome A) : M A := fun w => (o, w).

Definition click_echo (e : echo) : M unit :=
  fun w => (Return tt, World (echoed w ++ [e]) (sent w) (answers w)).

(** [click.confirm(prompt)]: shows the prompt and reads the answer; with no
    input left click raises [Abort]. *)
Definition click_confirm (prompt : list frag) : M bool :=
  fun w =>
    let shown := (echoed w ++ [Echo false None prompt])%list in
    match answers w with
    | a :: rest => (Return a, World shown (sent w) rest)
    | [] => (Raise Abort, World shown (sent w) [])
    end.

Definition out (s : string) : echo := Echo false None [Lit s].
Definition styled (err : bool) (colour : string) (b : list frag) : echo :=
  Echo err (Some colour) b.

Definition sys_exit {A : Type} (code : Z) : M A := raise (SystemExit code).

(** The exit status of the process once the command's function has run:
    click turns a [ClickException] into status 1, and an exception nobody
    catches ends the interpreter with status 1 as well. *)
Definition exit_code {A : Type} (o : outcome A) : Z :=
  match o with
  | Return _ => 0
  | Raise (SystemExit c) => c
  | Raise _ => 1
  end.

Definition initial (stdin : list bool) : world := World [] [] stdin.

(** [v.get(k, default)]; only a [dict] has the method. *)
Definition py_get (v : pyval) (k : string) (default : pyval) : outcome pyval :=
  match v with
  | PDict d => Return (match dict_get k d with Some x => x | None => default end)
  | _ => Raise AttributeError
  end.

(** * client.py *)

Section Client.

(** [API_BASE_URL] of the package's [__init__], the process environment
    [os.environ], and the server: the answer to a request may depend on the
    requests sent before it. *)
Variable API_BASE_URL : string.
Variable environ : gmap string string.
Variable post : list request -> request -> http_result.

Definition os_getenv (name : string) : option string := environ !! name.

Record WorkflowsClient : Type := Client {
  api_key : string;
  base_url : string
}.

Definition no_api_key : exn :=
  APIError
    (PStr "API key not provided. Set ETLR_API_KEY environment variable or pass api_key parameter.")
    None PNone.

(** [a or b] on optional strings: [a] when it is truthy, else [b]. *)
Definition py_or (a b : option string) : option string :=
  if truthy (of_optional a) then a else b.

(** [WorkflowsClient.__init__]. *)
Definition WorkflowsClient_init (api_key base_url : option string)
  : outcome WorkflowsClient :=
  let key := py_or api_key (os_getenv "ETLR_API_KEY") in
  let base := py_or base_url (Some API_BASE_URL) in
  match key, base with
  | Some k, Some b =>
      if negb (truthy (PStr k)) then Raise no_api_key else Return (Client k b)
  | _, _ => Raise no_api_key
  end.

(** [response.json()], or [{"text": response.text}] when the body is not
    JSON. *)
Definition response_data (text : string) (parsed : option pyval) : pyval :=
  match parsed with
  | Some d => d
  | None => PDict [("text", PStr text)]
  end.

(** The second half of [_request]: the parsed answer, or the [APIError] for
    a failed transport or a status that is not a success. *)
Definition response_outcome (r : http_result) : outcome pyval :=
  match r with
  | RequestException reason =>
      Raise (APIError (PStr ("Request failed: " ++ reason)) None PNone)
  | Response ok status text parsed =>
      let data := response_data text parsed in
      if negb ok then
        match py_get data "error" (PStr ("HTTP " ++ pretty status)) with
        | Raise e => Raise e
        | Return error_msg =>
            match py_get data "details" PNone with
            | Raise e => Raise e
            | Return details => Raise (APIError error_msg (Some status) details)
            end
        end
      else Return data
  end.

(** [WorkflowsClient._request]. *)
Definition _request (self : WorkflowsClient) (payload : pyval) : M pyval :=
  fun w =>
    let headers := [("X-API-KEY", api_key self);
                    ("Content-Type", "application/json")] in
    let req := Request (base_url self) payload headers 30 in
    (response_outcome (post (sent w) req),
     World (echoed w) (sent w ++ [req]) (answers w)).

Definition missing_identifier : exn :=
  APIError (PStr "Must provide either workflow_id or both name and stage")
           None PNone.

Definition list_workflows (self : WorkflowsClient) : M pyval :=
  _request self (PDict [("action", PStr "list")]).

Definition get_workflow (self : WorkflowsClient) (workflow_id name stage : pyval)
  : M pyval :=
  payload <-
    (if truthy workflow_id then
       ret (PDict [("action", PStr "get"); ("workflow_id", workflow_id)])
     else if truthy name && truthy stage then
       ret (PDict [("action", PStr "get"); ("name", name); ("stage", stage)])
     else raise missing_identifier) ;;
  _request self payload.

(** The payload [upsert_workflow] builds before it calls [_request]. *)
Definition upsert_payload (yaml : string) (env stage : pyval)
  : list (string * pyval) :=
  let payload := [("action", PStr "upsert"); ("workflow_yaml", PStr yaml)] in
  let payload := if truthy env then dict_set "env" env payload else payload in
  if truthy stage then dict_set "stage" stage payload else payload.

Definition upsert_workflow (self : WorkflowsClient) (yaml : string)
    (env stage : pyval) : M pyval :=
  _request self (PDict (upsert_payload yaml env stage)).

Definition delete_workflow (self : WorkflowsClient) (workflow_id name stage : pyval)
  : M pyval :=
  payload <-
    (if truthy workflow_id then
       ret (PDict [("action", PStr "delete"); ("workflow_id", workflow_id)])
     else if truthy name && truthy stage then
       ret (PDict [("action", PStr "delete"); ("name", name); ("stage", stage)])
     else raise missing_identifier) ;;
  _request self payload.

Definition deploy_workflow (self : WorkflowsClient) (workflow_id name stage : pyval)
  : M pyval :=
  payload <-
    (if truthy workflow_id then
       ret (PDict [("action", PStr "deploy"); ("workflow_id", workflow_id)])
     else if truthy name && truthy stage then
       ret (PDict [("action", PStr "deploy"); ("name", name); ("stage", stage)])
     else raise missing_identifier) ;;
  _request self payload.

Definition stop_workflow (self : WorkflowsClient) (workflow_id name stage : pyval)
  : M pyval :=
  payload <-
    (if truthy workflow_id then
       ret (PDict [("action", PStr "stop"); ("workflow_id", workflow_id)])
     else if truthy name && truthy stage then
       ret (PDict [("action", PStr "stop"); ("name", name); ("stage", stage)])
     else raise missing_identifier) ;;
  _request self payload.

Definition get_status (self : WorkflowsClient) (workflow_id name stage : pyval)
  : M pyval :=
  payload <-
    (if truthy workflow_id then
       ret (PDict [("action", PStr "status"); ("workflow_id", workflow_id)])
     else if truthy name && truthy stage then
       ret (PDict [("action", PStr "status"); ("name", name); ("stage", stage)])
     else raise missing_identifier) ;;
  _request self payload.

Definition list_versions (self : WorkflowsClient) (workflow_id : pyval) : M pyval :=
  _request self (PDict [("action", PStr "list_versions"); ("workflow_id", workflow_id)]).

Definition get_version (self : WorkflowsClient) (workflow_id : pyval) (version : Z)
  : M pyval :=
  _request self (PDict [("action", PStr "get_version");
                        ("workflow_id", workflow_id); ("version", PInt version)]).

Definition restore_version (self : WorkflowsClient) (workflow_id : pyval) (version : Z)
  : M pyval :=
  _request self (PDict [("action", PStr "restore_version");
                        ("workflow_id", workflow_id); ("version", PInt version)]).

End Client.

(** * main.py *)

(** One object of the list sent to the API: [{"name", "value", "secret"}]. *)
Record env_var : Type := EnvVar {
  var_name : string;
  var_value : string;
  var_secret : bool
}.

Definition env_var_json (e : env_var) : pyval :=
  PDict [("name", PStr (var_name e)); ("value", PStr (var_value e));
         ("secret", PBool (var_secret e))].

Definition newline : string := String (ascii_of_nat 10) "".

(** [for x in v]: the items of a list, the keys of a dict, the characters of
    a string; anything else is not iterable. *)
Definition py_iter (v : pyval) : outcome (list pyval) :=
  match v with
  | PList items => Return items
  | PDict entries => Return (map (fun kv => PStr (fst kv)) entries)
  | PStr s => Return (map (fun c => PStr (String c "")) (list_ascii_of_string s))
  | _ => Raise TypeError
  end.

(** The order of [sorted] on [(name, value)] tuples. *)
Definition item_leb (a b : string * string) : bool :=
  if String.eqb (fst a) (fst b) then String.leb (snd a) (snd b)
  else String.leb (fst a) (fst b).

Definition item_le (a b : string * string) : Prop := Is_true (item_leb a b).

Definition sorted (items : list (string * string)) : list (string * string) :=
  merge_sort item_le items.

(** The loop "Apply CLI overrides" (the same text serves the branch without
    declarations, from an empty dict). *)
Fixpoint apply_overrides (cli_overrides : list string)
    (env_vars : list (string * string)) : outcome (list (string * string)) :=
  match cli_overrides with
  | [] => Return env_vars
  | item :: rest =>
      if negb (str_contains "=" item) then
        Raise (ClickException
                 ("Invalid env format: " ++ item ++ ". Use KEY=VALUE"))
      else
        match str_split1 "=" item with
        | [key; value] => apply_overrides rest (dict_set key value env_vars)
        | _ => Raise ValueError
        end
  end.

(** The three accumulators of the declaration loop. *)
Record gathered : Type := Gathered {
  env_vars : list (string * string);
  missing : list string;
  secret_vars : gset string
}.

Definition missing_message (missing : list string) (first : string) : string :=
  "Missing required environment variables: " ++ str_join ", " missing ++ newline
  ++ "Set them with:" ++ newline ++ "  export " ++ first ++ "=value" ++ newline
  ++ "Or use the -e flag:" ++ newline
  ++ "  etlr deploy workflow.yaml -e " ++ first ++ "=value".

(** One line of the summary. *)
Definition display_line (secret_vars : gset string) (item : string * string)
  : echo :=
  let is_secret := bool_decide (fst item ∈ secret_vars) in
  let display_value := if is_secret then "***" else snd item in
  let secret_label := if is_secret then " (secret)" else "" in
  out ("  " ++ fst item ++ ": " ++ display_value ++ secret_label).

Fixpoint echo_all (lines : list echo) : M unit :=
  match lines with
  | [] => ret tt
  | l :: rest => click_echo l ;;; echo_all rest
  end.

(** The [name] and [is_secret] a declaration entry gives: the two keys of a
    mapping, or the entry itself as a name for the bare form. *)
Definition entry_name (env_def : pyval) : pyval :=
  match env_def with
  | PDict d => match dict_get "name" d with Some n => n | None => PNone end
  | _ => env_def
  end.

Definition entry_secret (env_def : pyval) : pyval :=
  match env_def with
  | PDict d => match dict_get "secret" d with Some s => s | None => PBool false end
  | _ => PBool false
  end.

Section Main.

Variable API_BASE_URL : string.
Variable environ : gmap string string.
Variable post : list request -> request -> http_result.

(** [yaml.safe_load]: the parsed document, or the text of the [YAMLError]. *)
Variable yaml_safe_load : string -> string + pyval.

(** [Path.exists] and [Path.read_text]; the latter gives the content or the
    text of the exception it raised. *)
Variable path_exists : string -> bool.
Variable read_text : string -> string + string.

(** One round of [for env_def in env_declarations]. *)
Definition declare (acc : gathered) (env_def : pyval) : outcome gathered :=
  let name := entry_name env_def in
  let is_secret := entry_secret env_def in
  if negb (truthy name) then Return acc
  else
    match name with
    | PStr n =>
        let secrets :=
          if truthy is_secret then {[n]} ∪ secret_vars acc
          else secret_vars acc in
        match os_getenv environ n with
        | None => Return (Gathered (env_vars acc) (missing acc ++ [n]) secrets)
        | Some value =>
            Return (Gathered (dict_set n value (env_vars acc)) (missing acc)
                             secrets)
        end
    | _ =>
        (* a set member must be hashable and [os.getenv] wants a [str] *)
        Raise TypeError
    end.

Fixpoint declare_all (acc : gathered) (env_declarations : list pyval)
  : outcome gathered :=
  match env_declarations with
  | [] => Return acc
  | env_def :: rest =>
      match declare acc env_def with
      | Return acc' => declare_all acc' rest
      | Raise e => Raise e
      end
  end.

(** [gather_environment_variables] from "if not env_declarations" on: the
    reconciliation of the declarations with the environment and the
    overrides. *)
Definition reconcile (env_declarations : pyval) (cli_overrides : list string)
  : M (list env_var) :=
  if negb (truthy env_declarations) then
    env_dict <- lift (apply_overrides cli_overrides []) ;;
    ret (map (fun item => EnvVar (fst item) (snd item) false) env_dict)
  else
    defs <- lift (py_iter env_declarations) ;;
    acc <- lift (declare_all (Gathered [] [] ∅) defs) ;;
    env_vars <- lift (apply_overrides cli_overrides (env_vars acc)) ;;
    match missing acc with
    | first :: _ => raise (ClickException (missing_message (missing acc) first))
    | [] =>
        match env_vars with
        | [] => ret tt
        | _ :: _ =>
            click_echo (out (newline ++ "Environment variables:")) ;;;
            echo_all (map (display_line (secret_vars acc)) (sorted env_vars)) ;;;
            click_echo (out "")
        end ;;;
        ret (map (fun item =>
                    EnvVar (fst item) (snd item)
                           (bool_decide (fst item ∈ secret_vars acc)))
                 env_vars)
    end.

Definition gather_environment_variables (yaml_content : string)
    (cli_overrides : list string) : M (list env_var) :=
  parsed <-
    match yaml_safe_load yaml_content with
    | inl e => raise (ClickException ("Invalid YAML: " ++ e))
    | inr doc => ret doc
    end ;;
  workflow <- lift (py_get parsed "workflow" (PDict [])) ;;
  env_declarations <- lift (py_get workflow "environment" (PList [])) ;;
  reconcile env_declarations cli_overrides.

(** [get_client]. *)
Definition get_client (api_key : option string) : M WorkflowsClient :=
  try_except (lift (WorkflowsClient_init API_BASE_URL environ api_key None))
    (fun e =>
       match e with
       | APIError message _ _ =>
           Some (click_echo (styled true "red" [Lit "Error: "; Str message]) ;;;
                 sys_exit 1)
       | _ => None
       end).

(** [format_output(data, "json")]. *)
Definition format_output (data : pyval) : echo := Echo false None [Json data].

(** [handle_api_error]. *)
Definition handle_api_error {A : Type} (message : pyval)
    (status_code : option Z) (details : pyval) : M A :=
  click_echo (styled true "red" [Lit "Error: "; Str message]) ;;;
  match status_code with
  | Some code =>
      if truthy (PInt code) then
        click_echo (styled true "red" [Lit "Status Code: "; Str (PInt code)])
      else ret tt
  | None => ret tt
  end ;;;
  (if truthy details then
     click_echo (styled true "red" [Lit "Details: "; Json details])
   else ret tt) ;;;
  sys_exit 1.

Definition except_APIError {A : Type} (e : exn) : option (M A) :=
  match e with
  | APIError message status_code details =>
      Some (handle_api_error message status_code details)
  | _ => None
  end.

(** The command [delete]. *)
Definition delete (ctx_api_key workflow_id name stage : option string)
    (yes : bool) : M unit :=
  proceed <-
    (if negb yes then
       let identifier :=
         if truthy (of_optional workflow_id) then [Str (of_optional workflow_id)]
         else [Str (of_optional name); Lit "/"; Str (of_optional stage)] in
       confirmed <-
         click_confirm ([Lit "Are you sure you want to delete workflow '"]
                        ++ identifier ++ [Lit "'?"]) ;;
       if negb confirmed then click_echo (out "Aborted.") ;;; ret false
       else ret true
     else ret true) ;;
  if negb proceed then ret tt
  else
    client <- get_client ctx_api_key ;;
    try_except
      (result <-
         delete_workflow post client (of_optional workflow_id)
                         (of_optional name) (of_optional stage) ;;
       click_echo (styled false "green" [Lit "✓ Workflow deleted"]) ;;;
       click_echo (format_output result))
      except_APIError.

(** [restore], lines 495 to 502: what is printed for the answer. *)
Definition report_restored (version : Z) (result : pyval) : M unit :=
  click_echo (styled false "green"
                [Lit "✓ Workflow restored to version "; Str (PInt version)]) ;;;
  match result with
  | PDict d =>
      match dict_get "workflow" d with
      | Some workflow =>
          new_version <- lift (py_get workflow "version" PNone) ;;
          if truthy new_version then
            click_echo (Echo false None
                          [Lit "New version created: "; Str new_version])
          else ret tt
      | None => ret tt
      end
  | PList items =>
      (* ["workflow" in result] on a list, then [result["workflow"]] *)
      if existsb (fun v => match v with
                           | PStr k => String.eqb k "workflow"
                           | _ => false
                           end) items
      then raise TypeError else ret tt
  | PStr text =>
      if str_infix "workflow" text then raise TypeError else ret tt
  | _ => raise TypeError
  end ;;;
  click_echo (format_output result).

(** The command [restore]; click requires [--id] and [--version]. *)
Definition restore (ctx_api_key : option string) (workflow_id : string)
    (version : Z) (yes : bool) : M unit :=
  proceed <-
    (if negb yes then
       confirmed <-
         click_confirm [Lit "Are you sure you want to restore workflow to version ";
                        Str (PInt version); Lit "?"] ;;
       if negb confirmed then click_echo (out "Aborted.") ;;; ret false
       else ret true
     else ret true) ;;
  if negb proceed then ret tt
  else
    client <- get_client ctx_api_key ;;
    try_except
      (result <- restore_version post client (PStr workflow_id) version ;;
       report_restored version result)
      except_APIError.

(** [deploy], lines 263 to 288: find and read the file, reconcile the
    environment. *)
Definition prepare (yaml_file : option string) (env : list string)
  : M (string * list env_var) :=
  yaml_file <-
    match yaml_file with
    | Some file => ret file
    | None =>
        if negb (path_exists "workflow.yaml") then
          click_echo (styled true "red"
            [Lit "Error: No workflow.yaml found in current directory. Provide a file or use --id/--name flags."]) ;;;
          sys_exit 1
        else ret "workflow.yaml"
    end ;;
  yaml_content <-
    match read_text yaml_file with
    | inr content => ret content
    | inl e =>
        click_echo (styled true "red" [Lit ("Error reading file: " ++ e)]) ;;;
        sys_exit 1
    end ;;
  env_dict <-
    try_except (gather_environment_variables yaml_content env)
      (fun e =>
         match e with
         | ClickException message =>
             Some (click_echo (styled true "red" [Lit ("Error: " ++ message)]) ;;;
                   sys_exit 1)
         | _ => None
         end) ;;
  ret (yaml_content, env_dict).

(** [deploy], lines 299 to 312: the identifiers in the answer to the
    upsert. *)
Definition read_push_result (push_result : pyval) : M (pyval * pyval * pyval) :=
  created <- lift (py_get push_result "created" PNone) ;;
  (if truthy created then
     click_echo (styled false "green" [Lit "✓ Workflow created"])
   else click_echo (styled false "green" [Lit "✓ Workflow updated"])) ;;;
  workflow_info <- lift (py_get push_result "workflow" (PDict [])) ;;
  workflow_id <- lift (py_get workflow_info "id" PNone) ;;
  deploy_name <- lift (py_get workflow_info "name" PNone) ;;
  deploy_stage <- lift (py_get workflow_info "stage" PNone) ;;
  if negb (truthy workflow_id) then
    click_echo (styled true "red"
      [Lit "Error: Could not get workflow ID from push response"]) ;;;
    sys_exit 1
  else ret (workflow_id, deploy_name, deploy_stage).

(** [deploy], lines 290 to 315: push the workflow and read the identifiers
    of the answer. *)
Definition push (client : WorkflowsClient) (yaml_content : string)
    (env_dict : list env_var) (stage : option string)
  : M (pyval * pyval * pyval) :=
  try_except
    ((if truthy (of_optional stage) then
        click_echo (Echo false None
          [Lit "Pushing workflow (stage override: "; Str (of_optional stage);
           Lit ")..."])
      else click_echo (out "Pushing workflow...")) ;;;
     push_result <-
       upsert_workflow post client yaml_content
         (match env_dict with
          | [] => PNone
          | _ :: _ => PList (map env_var_json env_dict)
          end)
         (of_optional stage) ;;
     read_push_result push_result)
    except_APIError.

(** [deploy], lines 317 to 325: deploy the workflow. *)
Definition start_deployment (client : WorkflowsClient)
    (workflow_id deploy_name deploy_stage : pyval) : M unit :=
  try_except
    (let identifier :=
       if truthy deploy_name && truthy deploy_stage
       then [Lit " "; Str deploy_name; Lit "/"; Str deploy_stage]
       else [Lit ""] in
     click_echo (Echo false None
                   ([Lit "Deploying workflow"] ++ identifier ++ [Lit "..."])) ;;;
     result <- deploy_workflow post client workflow_id deploy_name deploy_stage ;;
     click_echo (styled false "green" [Lit "✓ Workflow deployed and running"]) ;;;
     click_echo (format_output result))
    except_APIError.

(** The command [deploy]; [yaml_file], when given, names a file that exists
    (click checks it). *)
Definition deploy (ctx_api_key yaml_file workflow_id name stage : option string)
    (env : list string) : M unit :=
  client <- get_client ctx_api_key ;;
  ids <-
    (if match yaml_file with Some _ => true | None => false end
        || (negb (truthy (of_optional workflow_id))
            && negb (truthy (of_optional name)))
     then
       prepared <- prepare yaml_file env ;;
       push client (fst prepared) (snd prepared) stage
     else ret (of_optional workflow_id, of_optional name, of_optional stage)) ;;
  start_deployment client (fst (fst ids)) (snd (fst ids)) (snd ids).

(** How click fills an option declared with [envvar=]: the value on the
    command line if the option is there, else the variable's value unless it
    is unset or empty. *)
Definition click_option (flag : option string) (envvar : string)
  : option string :=
  match flag with
  | Some v => Some v
  | None =>
      match os_getenv environ envvar with
      | Some rv => if truthy (PStr rv) then Some rv else None
      | None => None
      end
  end.

(** [etlr [--api-key K] deploy [FILE] [--id I] [--name N] [--stage S] [-e ...]]:
    the group stores the key, the command's [--stage] reads [ETLR_STAGE]. *)
Definition cli_deploy (api_key_flag yaml_file id_flag name_flag stage_flag
                       : option string) (env : list string) : M unit :=
  deploy (click_option api_key_flag "ETLR_API_KEY") yaml_file id_flag name_flag
         (click_option stage_flag "ETLR_STAGE") env.

End Main.

(** ** The other commands of main.py *)

(** [if k in result: x = result[k]; body(x)]: membership is by key on a
    dict; on a list or a string the test can hold, and then the subscript
    by a string raises; anything else cannot be searched. *)
Definition with_key (k : string) (result : pyval) (body : pyval -> M unit)
  : M unit :=
  match result with
  | PDict d =>
      match dict_get k d with
      | Some x => body x
      | None => ret tt
      end
  | PList items =>
      if existsb (fun v => match v with
                           | PStr s => String.eqb s k
                           | _ => false
                           end) items
      then raise TypeError else ret tt
  | PStr text => if str_infix k text then raise TypeError else ret tt
  | _ => raise TypeError
  end.


(** [click.style(text, fg=colour)] inside an f-string: click's escape
    sequence for the colour, [str(text)], and the reset sequence. *)
Definition escape : string := String (ascii_of_nat 27) "[".

Definition colour_code (colour : string) : string :=
  if String.eqb colour "green" then "32"
  else if String.eqb colour "yellow" then "33"
  else "31".

Definition click_style (colour : string) (text : pyval) : list frag :=
  [Lit (escape ++ colour_code colour ++ "m"); Str text; Lit (escape ++ "0m")].


(** [status], lines 392 to 412: the summary of [runtime_health]. *)
Definition status_color (status_val : pyval) : string :=
  match status_val with
  | PStr s =>
      if String.eqb s "ok" then "green"
      else if String.eqb s "paused" then "yellow"
      else "red"
  | _ => "red"
  end.

Definition show_health (health : pyval) : M unit :=
  status_val <- lift (py_get health "status" (PStr "unknown")) ;;
  click_echo (Echo false None
                (Lit "Status: " :: click_style (status_color status_val) status_val)) ;;;
  ready <- lift (py_get health "ready" (PStr "unknown")) ;;
  click_echo (Echo false None [Lit "Ready: "; Str ready]) ;;;
  last_event_received <- lift (py_get health "last_event_received" PNone) ;;
  (if truthy last_event_received then
     click_echo (Echo false None [Lit "Last Event: "; Str last_event_received])
   else ret tt) ;;;
  errors <- lift (py_get health "errors" PNone) ;;
  (if truthy errors then
     click_echo (styled false "red" [Lit "Errors: "; Str errors])
   else ret tt) ;;;
  click_echo (out "").



Section OtherCommands.

Variable API_BASE_URL : string.
Variable environ : gmap string string.
Variable post : list request -> request -> http_result.

(** The command [list]; [--format] admits [json] only. *)
Definition list_workflows_cmd (ctx_api_key : option string) : M unit :=
  client <- get_client API_BASE_URL environ ctx_api_key ;;
  try_except
    (result <- list_workflows post client ;;
     click_echo (format_output result))
    except_APIError.

(** The command [get]. *)
Definition get (ctx_api_key workflow_id name stage : option string) : M unit :=
  client <- get_client API_BASE_URL environ ctx_api_key ;;
  try_except
    (result <-
       get_workflow post client (of_optional workflow_id) (of_optional name)
                    (of_optional stage) ;;
     click_echo (format_output result))
    except_APIError.

(** The command [start]. *)
Definition start (ctx_api_key workflow_id name stage : option string) : M unit :=
  client <- get_client API_BASE_URL environ ctx_api_key ;;
  try_except
    (result <-
       deploy_workflow post client (of_optional workflow_id) (of_optional name)
                       (of_optional stage) ;;
     click_echo (styled false "green" [Lit "✓ Workflow started"]) ;;;
     click_echo (format_output result))
    except_APIError.

(** The command [stop]. *)
Definition stop (ctx_api_key workflow_id name stage : option string) : M unit :=
  client <- get_client API_BASE_URL environ ctx_api_key ;;
  try_except
    (result <-
       stop_workflow post client (of_optional workflow_id) (of_optional name)
                     (of_optional stage) ;;
     click_echo (styled false "green" [Lit "✓ Workflow stopped"]) ;;;
     click_echo (format_output result))
    except_APIError.

(** The command [status]. *)
Definition status (ctx_api_key workflow_id name stage : option string) : M unit :=
  client <- get_client API_BASE_URL environ ctx_api_key ;;
  try_except
    (result <-
       get_status post client (of_optional workflow_id) (of_optional name)
                  (of_optional stage) ;;
     with_key "runtime_health" result show_health ;;;
     click_echo (format_output result))
    except_APIError.


(** The command [get-version]; click requires [--id] and [--version]. *)
Definition get_version_cmd (ctx_api_key : option string) (workflow_id : string)
    (version : Z) : M unit :=
  client <- get_client API_BASE_URL environ ctx_api_key ;;
  try_except
    (result <- get_version post client (PStr workflow_id) version ;;
     click_echo (format_output result))
    except_APIError.

End OtherCommands.

(** * Specification-level definitions *)

Local Open Scope list_scope.

(** The request [_request] sends for a payload. *)
Definition client_request (self : WorkflowsClient) (payload : pyval) : request :=
  Request (base_url self) payload
          [("X-API-KEY", api_key self); ("Content-Type", "application/json")] 30.

(** The five operations that take an identifier, with their [action]. *)
Definition identifier_operations
  : list (string * ((list request -> request -> http_result) ->
                    WorkflowsClient -> pyval -> pyval -> pyval -> M pyval)) :=
  [("get", get_workflow); ("delete", delete_workflow);
   ("deploy", deploy_workflow); ("stop", stop_workflow);
   ("status", get_status)].

(** The identifier policy in the words of the specification: the UUID if one
    is given, else the pair if both name and stage are given, else nothing.
    An argument is given when it is a non-empty string (a truthy value). *)
Inductive resolution : Type :=
| ById (workflow_id : pyval)
| ByNameStage (name stage : pyval)
| NoIdentifier.

Definition identifier_policy (workflow_id name stage : pyval) : resolution :=
  if truthy workflow_id then ById workflow_id
  else if truthy name then
         if truthy stage then ByNameStage name stage else NoIdentifier
       else NoIdentifier.

(** The YAML body [yaml_content] parses, and its [workflow.environment] is
    [env_declarations] (the empty list when the key is absent). *)
Definition declares (yaml_safe_load : string -> string + pyval)
    (yaml_content : string) (env_declarations : pyval) : Prop :=
  exists parsed workflow,
    yaml_safe_load yaml_content = inr parsed
    /\ py_get parsed "workflow" (PDict []) = Return workflow
    /\ py_get workflow "environment" (PList []) = Return env_declarations.

(** What a successful reconciliation of declared variables prints. *)
Definition summary (secrets : gset string) (items : list (string * string))
  : list echo :=
  match items with
  | [] => []
  | _ :: _ =>
      [out (newline ++ "Environment variables:")%string]
      ++ map (display_line secrets) (sorted items) ++ [out ""]
  end.

(** The key an override item assigns: the text before its first [=]. *)
Definition override_key (item : string) : string :=
  match str_split1 "=" item with
  | key :: _ => key
  | [] => ""
  end.

(** A declaration entry gives [n] the secret flag: a mapping whose name is
    the non-empty string [n] and whose [secret] is truthy. *)
Definition declares_secret (n : string) (env_def : pyval) : bool :=
  match env_def with
  | PDict d =>
      match dict_get "name" d, dict_get "secret" d with
      | Some (PStr m), Some s => truthy (PStr m) && String.eqb m n && truthy s
      | _, _ => false
      end
  | _ => false
  end.

(** The entries of [workflow.environment] the declaration loop visits. *)
Definition declared_items (env_declarations : pyval) : list pyval :=
  if truthy env_declarations then
    match py_iter env_declarations with
    | Return defs => defs
    | Raise _ => []
    end
  else [].

Definition declared_secret (env_declarations : pyval) (n : string) : bool :=
  existsb (declares_secret n) (declared_items env_declarations).

(** A mapping entry without a usable name: no ["name"] key, or a name that
    is null, empty or otherwise falsy. *)
Definition nameless (env_def : pyval) : bool :=
  match env_def with
  | PDict d =>
      negb (truthy (match dict_get "name" d with Some n => n | None => PNone end))
  | _ => false
  end.

(** The line of the summary for one object of the returned list. *)
Definition summary_line (e : env_var) : echo :=
  out (if var_secret e
       then ("  " ++ var_name e ++ ": *** (secret)")%string
       else ("  " ++ var_name e ++ ": " ++ var_value e)%string).

Definition name_le (a b : env_var) : Prop :=
  String.leb (var_name a) (var_name b) = true.

(** The text [needle] occurs in some printed line. *)
Definition displayed (needle : string) (w : world) : bool :=
  existsb (fun e =>
             existsb (fun f => match f with
                               | Lit s => str_infix needle s
                               | _ => false
                               end) (body e))
          (echoed w).

(** The [env] argument [deploy] passes to [upsert_workflow]. *)
Definition env_argument (env_dict : list env_var) : pyval :=
  match env_dict with
  | [] => PNone
  | _ :: _ => PList (map env_var_json env_dict)
  end.

(** A field of the JSON payload of a request. *)
Definition payload_field (key : string) (req : request) : option pyval :=
  match json req with
  | PDict d => dict_get key d
  | _ => None
  end.

(** The stage the server works with: [upsert_workflow] documents its [stage]
    as an override of the stage in the YAML. *)
Definition effective_stage (yaml_stage : pyval) (req : request) : pyval :=
  match payload_field "stage" req with
  | Some stage => stage
  | None => yaml_stage
  end.

(** A computation that sends nothing and reads no answer. *)
Definition quiet {A : Type} (m : M A) : Prop :=
  forall w, sent (snd (m w)) = sent w /\ answers (snd (m w)) = answers w.

(** The payload of an identifier-requiring operation, once resolved. *)
Definition identified_payload (action : string) (r : resolution) : option pyval :=
  match r with
  | ById i => Some (PDict [("action", PStr action); ("workflow_id", i)])
  | ByNameStage n s =>
      Some (PDict [("action", PStr action); ("name", n); ("stage", s)])
  | NoIdentifier => None
  end.

(** The world after a confirmation prompt has been answered. *)
Definition asked (prompt : list frag) (rest : list bool) (w : world) : world :=
  World (echoed w ++ [Echo false None prompt]) (sent w) rest.

(** The file a file-based [deploy] reads: the argument, or [workflow.yaml]
    when there is none and that file exists. *)
Definition deploy_file (path_exists : string -> bool) (yaml_file : option string)
  : option string :=
  match yaml_file with
  | Some file => Some file
  | None => if path_exists "workflow.yaml" then Some "workflow.yaml" else None
  end.

(** [deploy] takes the file-based path: a file is given, or neither [--id]
    nor [--name] is. *)
Definition file_based (yaml_file workflow_id name : option string) : bool :=
  match yaml_file with Some _ => true | None => false end
  || (negb (truthy (of_optional workflow_id)) && negb (truthy (of_optional name))).

(** The two requests of a file-based [deploy]. *)
Definition upsert_request (client : WorkflowsClient) (yaml_content : string)
    (env_dict : list env_var) (stage : option string) : request :=
  client_request client
    (PDict (upsert_payload yaml_content (env_argument env_dict)
                           (of_optional stage))).

Definition deploy_request (client : WorkflowsClient) (workflow_id : pyval)
  : request :=
  client_request client
    (PDict [("action", PStr "deploy"); ("workflow_id", workflow_id)]).

(** The upsert got no successful answer. *)
Definition upsert_failed (r : http_result) : bool :=
  match r with
  | Response true _ _ _ => false
  | _ => true
  end.

(** A file-based [deploy] as the specification words it: one upsert request,
    then one deploy request, in that order, unless the upsert fails, and then
    the upsert alone. *)
Definition deploy_as_specified (post : list request -> request -> http_result)
    (w : world) (run : outcome unit * world) : Prop :=
  exists up,
    payload_field "action" up = Some (PStr "upsert")
    /\ if upsert_failed (post (sent w) up)
       then sent (snd run) = sent w ++ [up]
       else exists dep,
              payload_field "action" dep = Some (PStr "deploy")
              /\ sent (snd run) = sent w ++ [up; dep].

(** A confirmed command as the specification words it: after a negative
    answer exit status 0 and no request, after an affirmative answer exactly
    one request. *)
Definition confirmation_as_specified (answer : bool) (w : world)
    (run : outcome unit * world) : Prop :=
  if answer then exists req, sent (snd run) = sent w ++ [req]
  else exit_code (fst run) = 0 /\ sent (snd run) = sent w.

(** ** Sample documents *)

Definition workflow_doc (environment : list pyval) : pyval :=
  PDict [("workflow",
          PDict [("name", PStr "test-workflow"); ("stage", PStr "dev");
                 ("environment", PList environment)])].

Definition plain_doc : pyval :=
  PDict [("workflow",
          PDict [("name", PStr "test-workflow"); ("stage", PStr "dev")])].

Definition loads (doc : pyval) : string -> string + pyval := fun _ => inr doc.

Definition secret_declaration (n : string) : pyval :=
  PDict [("name", PStr n); ("secret", PBool true)].

(** The summary as the specification words it: whenever reconciliation
    returns a non-empty list, the variables are listed in the order of their
    names, and no printed line contains the value of a secret variable. *)
Definition summary_as_specified (environ : gmap string string)
    (yaml_safe_load : string -> string + pyval) (yaml_content : string)
    (overrides : list string) (w : world) : Prop :=
  forall l w',
    gather_environment_variables environ yaml_safe_load yaml_content overrides w
    = (Return l, w') ->
    l <> [] ->
    (exists ordered,
       ordered ≡ₚ l
       /\ Sorted name_le ordered
       /\ echoed w'
          = echoed w ++ [out (newline ++ "Environment variables:")%string]
            ++ map summary_line ordered ++ [out ""])
    /\ (forall e, e ∈ l -> var_secret e = true ->
                  displayed (var_value e) w' = false).

(** A server that creates the workflow and then deploys it. *)
Definition sample_server (history : list request) (req : request) : http_result :=
  match history with
  | [] =>
      Response true 200 ""
        (Some (PDict [("created", PBool true);
                      ("workflow",
                       PDict [("id", PStr "123"); ("name", PStr "test-workflow");
                              ("stage", PStr "prod")])]))
  | _ :: _ => Response true 200 "" (Some (PDict [("status", PStr "deployed")]))
  end.

Definition sample_client : WorkflowsClient := Client "test-key" "https://api".

Definition sample_files (path : string) : string + string := inr "workflow: {}".

Definition staging : gmap string string := {["ETLR_STAGE" := "staging"]}.

(** Two bodies that differ by one nameless entry. *)
Definition sample_bodies (body : string) : string + pyval :=
  if String.eqb body "with"
  then inr (workflow_doc [PStr "LOG_LEVEL"; PDict [("secret", PBool true)]])
  else inr (workflow_doc [PStr "LOG_LEVEL"]).

Definition debug_level : gmap string string := {["LOG_LEVEL" := "debug"]}.

Definition test_environment : gmap string string :=
  <["API_KEY" := "secret-key-123"]> {["LOG_LEVEL" := "info"]}.

(** A server that stores the workflow but answers without its id. *)
Definition forgetful_server (history : list request) (req : request)
  : http_result :=
  Response true 200 "" (Some (PDict [("created", PBool true)])).

Definition two_secrets : pyval :=
  workflow_doc [secret_declaration "API_KEY"; secret_declaration "DATABASE_URL"].

Definition only_api_key : gmap string string :=
  {["API_KEY" := "secret-key-123"]}.

(** ** Definitions for the further properties *)

(** The keys of a dict filled by assigning to [keys] in turn: each key at
    the place of its first assignment. *)
Definition add_key (acc : list string) (k : string) : list string :=
  if bool_decide (k ∈ acc) then acc else acc ++ [k].

Definition insertion_order (keys : list string) : list string :=
  fold_left add_key keys [].

(** A declaration entry the loop can handle: its name is a string, or
    falsy. *)
Definition name_ok (env_def : pyval) : bool :=
  match entry_name env_def with
  | PStr _ => true
  | v => negb (truthy v)
  end.

(** The declared names that have, or lack, a value in the environment, in
    the order of the declarations. *)
Definition names_where (keep : option string -> bool)
    (environ : gmap string string) (defs : list pyval) : list string :=
  flat_map (fun env_def =>
              match entry_name env_def with
              | PStr n =>
                  if truthy (PStr n) && keep (environ !! n) then [n] else []
              | _ => []
              end) defs.

Definition defined_names : gmap string string -> list pyval -> list string :=
  names_where (fun value => match value with Some _ => true | None => false end).

Definition undefined_names : gmap string string -> list pyval -> list string :=
  names_where (fun value => match value with Some _ => false | None => true end).

(** The usable names of the declarations, in their order. *)
Definition declared_names (defs : list pyval) : list string :=
  flat_map (fun env_def =>
              match entry_name env_def with
              | PStr n => if truthy (PStr n) then [n] else []
              | _ => []
              end) defs.

(** The declarations can be walked without a [TypeError]. *)
Definition walkable (env_declarations : pyval) : bool :=
  negb (truthy env_declarations)
  || match py_iter env_declarations with
     | Return defs => forallb name_ok defs
     | Raise _ => false
     end.

(** An optional string that is given and not empty. *)
Definition nonempty (o : option string) : option string :=
  match o with
  | Some s => if String.eqb s "" then None else Some s
  | None => None
  end.

(** The API key a run works with: the [--api-key] flag, else the variable
    [ETLR_API_KEY], an empty string counting as absent in both places. *)
Definition resolved_api_key (environ : gmap string string)
    (flag : option string) : option string :=
  match nonempty flag with
  | Some k => Some k
  | None => nonempty (environ !! "ETLR_API_KEY")
  end.

(** The ten operations of the client, with their [action], at given
    arguments. *)
Definition client_operations (post : list request -> request -> http_result)
    (self : WorkflowsClient) (yaml : string) (env stage_override : pyval)
    (workflow_id name stage : pyval) (version : Z)
  : list (string * M pyval) :=
  [("list", list_workflows post self);
   ("get", get_workflow post self workflow_id name stage);
   ("upsert", upsert_workflow post self yaml env stage_override);
   ("delete", delete_workflow post self workflow_id name stage);
   ("deploy", deploy_workflow post self workflow_id name stage);
   ("stop", stop_workflow post self workflow_id name stage);
   ("status", get_status post self workflow_id name stage);
   ("list_versions", list_versions post self workflow_id);
   ("get_version", get_version post self workflow_id version);
   ("restore_version", restore_version post self workflow_id version)].

(** The commands that make one call and print its answer. *)
Inductive simple_command : Type :=
| CmdList
| CmdGet (workflow_id name stage : option string)
| CmdStart (workflow_id name stage : option string)
| CmdStop (workflow_id name stage : option string)
| CmdGetVersion (workflow_id : string) (version : Z).

Definition run_command (API_BASE_URL : string) (environ : gmap string string)
    (post : list request -> request -> http_result)
    (ctx_api_key : option string) (c : simple_command) : M unit :=
  match c with
  | CmdList => list_workflows_cmd API_BASE_URL environ post ctx_api_key
  | CmdGet i n s => get API_BASE_URL environ post ctx_api_key i n s
  | CmdStart i n s => start API_BASE_URL environ post ctx_api_key i n s
  | CmdStop i n s => stop API_BASE_URL environ post ctx_api_key i n s
  | CmdGetVersion i v => get_version_cmd API_BASE_URL environ post ctx_api_key i v
  end.

(** The payload a command asks the client to send, if its identifier
    resolves. *)
Definition command_payload (c : simple_command) : option pyval :=
  let resolve action i n s :=
    identified_payload action
      (identifier_policy (of_optional i) (of_optional n) (of_optional s)) in
  match c with
  | CmdList => Some (PDict [("action", PStr "list")])
  | CmdGet i n s => resolve "get" i n s
  | CmdStart i n s => resolve "deploy" i n s
  | CmdStop i n s => resolve "stop" i n s
  | CmdGetVersion i v =>
      Some (PDict [("action", PStr "get_version"); ("workflow_id", PStr i);
                   ("version", PInt v)])
  end.

(** The line a command prints before the answer. *)
Definition banner (c : simple_command) : list echo :=
  match c with
  | CmdStart _ _ _ => [styled false "green" [Lit "✓ Workflow started"]]
  | CmdStop _ _ _ => [styled false "green" [Lit "✓ Workflow stopped"]]
  | _ => []
  end.

(** The lines of a failure: all on standard error. *)
Definition on_stderr (lines : list echo) : Prop :=
  Forall (fun line => to_stderr line = true) lines.






Definition no_files (path : string) : bool := false.

(** [etlr [--api-key K] start [--id I] [--name N] [--stage S]]: the group
    stores the key as for every command; the [--stage] of [start] is declared
    without [envvar=] and reads no variable. *)
Definition cli_start (API_BASE_URL : string) (environ : gmap string string)
    (post : list request -> request -> http_result)
    (api_key_flag id_flag name_flag stage_flag : option string) : M unit :=
  start API_BASE_URL environ post (click_option environ api_key_flag "ETLR_API_KEY")
        id_flag name_flag stage_flag.

(** Two runs with the same outcome, hence the same exit status, the same
    requests sent and the same answers left to read. *)
Definition same_effect {A : Type} (a b : outcome A * world) : Prop :=
  fst a = fst b
  /\ sent (snd a) = sent (snd b)
  /\ answers (snd a) = answers (snd b).

(** A variable set to a stage that [start] cannot know. *)
Definition production : gmap string string := {["ETLR_STAGE" := "prod"]}.

(** * Properties of the client *)

Section ClientProperties.

Variable post : list request -> request -> http_result.

Lemma truthy_of_optional (o : option string) :
  truthy (of_optional o) = true <-> exists s, o = Some s /\ s <> "".
Proof.
  destruct o as [s|]; simpl.
  - rewrite negb_true_iff, String.eqb_neq. split.
    + intros H. exists s. auto.
    + intros (s' & Hs & Hne). congruence.
  - split; [discriminate | intros (s & Hs & _); discriminate].
Qed.

Lemma _request_sent (self : WorkflowsClient) (payload : pyval) (w : world) :
  sent (snd (_request post self payload w)) = sent w ++ [client_request self payload].
Proof. reflexivity. Qed.

(** C2. Each of [get_workflow], [delete_workflow], [deploy_workflow],
    [stop_workflow] and [get_status] follows the identifier policy: with a
    workflow id given, it sends exactly one request whose payload is the
    action and the [workflow_id] alone, whatever name and stage are; else
    with name and stage both given, one request with the action and that
    pair; otherwise it raises the missing-identifier error and the world,
    hence the list of requests sent, is unchanged. *)
Theorem identifier_resolution (self : WorkflowsClient)
    (workflow_id name stage : pyval) (w : world) :
  Forall (fun aop =>
    let r := snd aop post self workflow_id name stage w in
    match identifier_policy workflow_id name stage with
    | ById i =>
        let payload := PDict [("action", PStr (fst aop)); ("workflow_id", i)] in
        r = _request post self payload w
        /\ sent (snd r) = sent w ++ [client_request self payload]
    | ByNameStage n s =>
        let payload :=
          PDict [("action", PStr (fst aop)); ("name", n); ("stage", s)] in
        r = _request post self payload w
        /\ sent (snd r) = sent w ++ [client_request self payload]
    | NoIdentifier => r = (Raise missing_identifier, w)
    end) identifier_operations.
Proof.
  unfold identifier_operations, identifier_policy.
  repeat first [apply List.Forall_cons | apply List.Forall_nil]; cbn [fst snd];
    unfold get_workflow, delete_workflow, deploy_workflow, stop_workflow,
      get_status;
    (destruct (truthy workflow_id);
     [| destruct (truthy name), (truthy stage)]);
    cbn [andb]; unfold bind, ret, raise; cbn [fst snd];
    first [ reflexivity | split; [reflexivity | apply _request_sent] ].
Qed.

(** C9. The identifier arguments are tested for truthiness: an empty-string
    [workflow_id] behaves as [None], and an empty-string name or stage makes
    the pair incomplete whatever the other member is, so that without a
    workflow id the operation raises the missing-identifier error before any
    request. *)
Theorem empty_identifier_is_absent (self : WorkflowsClient) (w : world) :
  Forall (fun aop =>
    let op := snd aop post self in
    (forall name stage, op (PStr "") name stage w = op PNone name stage w)
    /\ (forall other,
          op PNone (PStr "") other w = (Raise missing_identifier, w)
          /\ op PNone other (PStr "") w = (Raise missing_identifier, w)
          /\ op (PStr "") (PStr "") other w = (Raise missing_identifier, w)
          /\ op (PStr "") other (PStr "") w = (Raise missing_identifier, w)))
    identifier_operations.
Proof.
  unfold identifier_operations.
  repeat first [apply List.Forall_cons | apply List.Forall_nil]; cbn [fst snd];
    (split; [reflexivity |]); intros other;
    unfold get_workflow, delete_workflow, deploy_workflow, stop_workflow,
      get_status; cbn [truthy String.eqb negb andb];
    destruct (truthy other); repeat split; reflexivity.
Qed.

End ClientProperties.

(** * Properties of environment reconciliation *)

Section Dictionaries.

Context {V : Type}.
Implicit Types (d : list (string * V)) (k : string) (v : V).

Lemma dict_get_set_eq d k v : dict_get k (dict_set k v d) = Some v.
Proof.
  induction d as [| [k' v'] d IH]; simpl.
  - now rewrite String.eqb_refl.
  - destruct (String.eqb k k') eqn:E; simpl; rewrite ?String.eqb_refl, ?E; auto.
Qed.

Lemma dict_get_set_ne d k k' v :
  k <> k' -> dict_get k' (dict_set k v d) = dict_get k' d.
Proof.
  intros Hne. induction d as [| [k0 v0] d IH]; simpl.
  - apply String.eqb_neq in Hne. rewrite String.eqb_sym in Hne. now rewrite Hne.
  - destruct (String.eqb k k0) eqn:E; simpl.
    + apply String.eqb_eq in E. subst k0.
      destruct (String.eqb k' k) eqn:E'; [| reflexivity].
      apply String.eqb_eq in E'. congruence.
    + now rewrite IH.
Qed.

Lemma dict_keys_set d k v :
  dict_keys (dict_set k v d)
  = if bool_decide (k ∈ dict_keys d) then dict_keys d else dict_keys d ++ [k].
Proof.
  induction d as [| [k' v'] d IH]; simpl.
  - reflexivity.
  - destruct (String.eqb k k') eqn:E; simpl.
    + apply String.eqb_eq in E. subst k'.
      rewrite bool_decide_eq_true_2 by (unfold dict_keys; simpl; left).
      reflexivity.
    + apply String.eqb_neq in E. fold (dict_keys d). fold (dict_keys (dict_set k v d)).
      rewrite IH. unfold dict_keys at 3. simpl. fold (dict_keys d).
      destruct (bool_decide (k ∈ dict_keys d)) eqn:B.
      * apply bool_decide_eq_true in B.
        rewrite bool_decide_eq_true_2 by (right; exact B). reflexivity.
      * apply bool_decide_eq_false in B.
        rewrite bool_decide_eq_false_2; [reflexivity |].
        intros H. apply elem_of_cons in H. destruct H; [congruence | contradiction].
Qed.

Lemma dict_set_NoDup d k v : NoDup (dict_keys d) -> NoDup (dict_keys (dict_set k v d)).
Proof.
  intros Hnd. rewrite dict_keys_set. case_bool_decide as Hk; [exact Hnd |].
  apply NoDup_app. split; [exact Hnd |]. split.
  - intros x Hx Hx'. apply list_elem_of_singleton in Hx'. subst x. contradiction.
  - apply NoDup_singleton.
Qed.

Lemma dict_get_elem_of d k v :
  NoDup (dict_keys d) -> dict_get k d = Some v <-> (k, v) ∈ d.
Proof.
  induction d as [| [k' v'] d IH]; simpl; intros Hnd.
  - split; [discriminate | intros H; inversion H].
  - apply NoDup_cons in Hnd. destruct Hnd as [Hnotin Hnd].
    destruct (String.eqb k k') eqn:E.
    + apply String.eqb_eq in E. subst k'. split.
      * intros [= ->]. left.
      * intros H. apply elem_of_cons in H. destruct H as [H | H]; [congruence |].
        exfalso. apply Hnotin. unfold dict_keys.
        apply list_elem_of_fmap. exists (k, v). auto.
    + apply String.eqb_neq in E. rewrite (IH Hnd). split.
      * intros H. now right.
      * intros H. apply elem_of_cons in H. destruct H as [H | H]; [congruence | exact H].
Qed.

End Dictionaries.

Section Overrides.

Implicit Types (d : list (string * string)) (overrides : list string).

Lemma apply_overrides_app overrides overrides' d :
  apply_overrides (overrides ++ overrides') d
  = match apply_overrides overrides d with
    | Return d' => apply_overrides overrides' d'
    | Raise e => Raise e
    end.
Proof.
  revert d. induction overrides as [| item rest IH]; intros d; simpl; [reflexivity |].
  destruct (str_contains "=" item); simpl; [| reflexivity].
  destruct (str_split1 "=" item) as [| key [| value [| ? ?]]]; auto.
Qed.

Lemma apply_overrides_cons item overrides d d' :
  apply_overrides (item :: overrides) d = Return d' ->
  exists key value,
    str_split1 "=" item = [key; value]
    /\ apply_overrides overrides (dict_set key value d) = Return d'.
Proof.
  simpl. destruct (str_contains "=" item); simpl; [| discriminate].
  destruct (str_split1 "=" item) as [| key [| value [| ? ?]]]; try discriminate.
  eauto.
Qed.

Lemma apply_overrides_NoDup overrides d d' :
  NoDup (dict_keys d) -> apply_overrides overrides d = Return d' ->
  NoDup (dict_keys d').
Proof.
  revert d. induction overrides as [| item rest IH]; intros d Hnd H.
  - simpl in H. congruence.
  - apply apply_overrides_cons in H. destruct H as (key & value & _ & H).
    eapply IH; [| exact H]. now apply dict_set_NoDup.
Qed.

Lemma apply_overrides_other overrides d d' k :
  Forall (fun item => override_key item <> k) overrides ->
  apply_overrides overrides d = Return d' ->
  dict_get k d' = dict_get k d.
Proof.
  revert d. induction overrides as [| item rest IH]; intros d Hall H.
  - simpl in H. congruence.
  - apply Forall_cons in Hall. destruct Hall as [Hitem Hall].
    apply apply_overrides_cons in H. destruct H as (key & value & Hsplit & H).
    rewrite (IH _ Hall H). apply dict_get_set_ne.
    unfold override_key in Hitem. now rewrite Hsplit in Hitem.
Qed.

(** The last override of a key decides its value. *)
Lemma apply_overrides_last pre item post k v d d' :
  str_split1 "=" item = [k; v] ->
  Forall (fun item => override_key item <> k) post ->
  apply_overrides (pre ++ item :: post) d = Return d' ->
  dict_get k d' = Some v.
Proof.
  intros Hsplit Hpost H. rewrite apply_overrides_app in H.
  destruct (apply_overrides pre d) as [d1 |]; [| discriminate].
  apply apply_overrides_cons in H. destruct H as (key & value & Hsplit' & H).
  rewrite Hsplit in Hsplit'. injection Hsplit' as <- <-.
  rewrite (apply_overrides_other _ _ _ _ Hpost H). apply dict_get_set_eq.
Qed.

End Overrides.

Section Reconciliation.

Variable environ : gmap string string.
Variable yaml_safe_load : string -> string + pyval.

Lemma gather_declares yaml_content env_declarations overrides w :
  declares yaml_safe_load yaml_content env_declarations ->
  gather_environment_variables environ yaml_safe_load yaml_content overrides w
  = reconcile environ env_declarations overrides w.
Proof.
  intros (parsed & workflow & Hp & Hw & He).
  unfold gather_environment_variables, bind, lift, ret.
  now rewrite Hp, Hw, He.
Qed.

Lemma gather_returns yaml_content overrides w l w' :
  gather_environment_variables environ yaml_safe_load yaml_content overrides w
  = (Return l, w') ->
  exists env_declarations, declares yaml_safe_load yaml_content env_declarations.
Proof.
  unfold gather_environment_variables, bind, lift, ret, raise, declares.
  destruct (yaml_safe_load yaml_content) as [e | parsed]; [discriminate |].
  destruct (py_get parsed "workflow" _) as [workflow |] eqn:Hw; [| discriminate].
  destruct (py_get workflow "environment" _) as [decls |] eqn:He; [| discriminate].
  intros _. eauto 6.
Qed.

Lemma echo_all_spec (lines : list echo) (w : world) :
  echo_all lines w = (Return tt, World (echoed w ++ lines) (sent w) (answers w)).
Proof.
  revert w. induction lines as [| l rest IH]; intros w; simpl.
  - unfold ret. rewrite app_nil_r. now destruct w.
  - unfold bind, click_echo. rewrite IH. simpl. now rewrite <- app_assoc.
Qed.

(** What a returning reconciliation went through, branch by branch. *)
Lemma reconcile_returns env_declarations overrides w l w' :
  reconcile environ env_declarations overrides w = (Return l, w') ->
  (truthy env_declarations = false
   /\ w' = w
   /\ exists d,
        apply_overrides overrides [] = Return d
        /\ l = map (fun item => EnvVar (fst item) (snd item) false) d)
  \/ (truthy env_declarations = true
      /\ exists defs acc d,
           py_iter env_declarations = Return defs
           /\ declare_all environ (Gathered [] [] ∅) defs = Return acc
           /\ apply_overrides overrides (env_vars acc) = Return d
           /\ missing acc = []
           /\ l = map (fun item =>
                         EnvVar (fst item) (snd item)
                                (bool_decide (fst item ∈ secret_vars acc))) d
           /\ w' = World (echoed w ++ summary (secret_vars acc) d)
                         (sent w) (answers w)).
Proof.
  unfold reconcile. destruct (truthy env_declarations); simpl.
  - intros H. right. split; [reflexivity |].
    unfold bind, lift, ret, raise in H.
    destruct (py_iter env_declarations) as [defs |] eqn:Hdefs; [| discriminate].
    destruct (declare_all environ (Gathered [] [] ∅) defs) as [acc |] eqn:Hacc;
      [| discriminate].
    destruct (apply_overrides overrides (env_vars acc)) as [d |] eqn:Hd;
      [| discriminate].
    destruct (missing acc) as [| first rest] eqn:Hm; [| discriminate].
    exists defs, acc, d. do 4 (split; [reflexivity || assumption |]).
    destruct d as [| item d].
    + injection H as <- <-. split; [reflexivity |].
      unfold summary. rewrite app_nil_r. now destruct w.
    + unfold click_echo in H. rewrite echo_all_spec in H. simpl in H.
      injection H as <- <-. split; [reflexivity |].
      unfold summary. now rewrite <- !app_assoc.
  - intros H. left. split; [reflexivity |].
    unfold bind, lift, ret in H.
    destruct (apply_overrides overrides []) as [d |]; [| discriminate].
    injection H as <- <-. eauto.
Qed.

(** Reconciliation sends nothing and asks nothing, whatever its outcome. *)
Lemma reconcile_sent env_declarations overrides w :
  sent (snd (reconcile environ env_declarations overrides w)) = sent w
  /\ answers (snd (reconcile environ env_declarations overrides w)) = answers w.
Proof.
  unfold reconcile. destruct (truthy env_declarations); simpl.
  - unfold bind, lift, ret, raise.
    destruct (py_iter env_declarations) as [defs |]; [| auto].
    destruct (declare_all environ (Gathered [] [] ∅) defs) as [acc |]; [| auto].
    destruct (apply_overrides overrides (env_vars acc)) as [d |]; [| auto].
    destruct (missing acc); [| auto].
    destruct d; [auto |].
    unfold click_echo. rewrite echo_all_spec. auto.
  - unfold bind, lift, ret. destruct (apply_overrides overrides []); auto.
Qed.

Lemma gather_sent yaml_content overrides w :
  sent (snd (gather_environment_variables environ yaml_safe_load yaml_content
               overrides w)) = sent w
  /\ answers (snd (gather_environment_variables environ yaml_safe_load
                     yaml_content overrides w)) = answers w.
Proof.
  unfold gather_environment_variables, bind, lift, ret, raise.
  destruct (yaml_safe_load yaml_content) as [e | parsed]; [auto |].
  destruct (py_get parsed "workflow" _) as [workflow |]; [| auto].
  destruct (py_get workflow "environment" _) as [decls |]; [| auto].
  apply reconcile_sent.
Qed.

(** The declaration loop, one property at a time. *)

Lemma declare_cases acc env_def acc' :
  declare environ acc env_def = Return acc' ->
  (truthy (entry_name env_def) = false /\ acc' = acc)
  \/ exists n,
       entry_name env_def = PStr n /\ n <> ""
       /\ secret_vars acc'
          = (if truthy (entry_secret env_def) then {[n]} ∪ secret_vars acc
             else secret_vars acc)
       /\ match environ !! n with
          | None => env_vars acc' = env_vars acc
                    /\ missing acc' = missing acc ++ [n]
          | Some value => env_vars acc' = dict_set n value (env_vars acc)
                          /\ missing acc' = missing acc
          end.
Proof.
  unfold declare, os_getenv.
  destruct (truthy (entry_name env_def)) eqn:Ht; simpl.
  - destruct (entry_name env_def) as [| | | n | |]; try discriminate.
    intros H. right. exists n. split; [reflexivity |].
    split; [simpl in Ht; now apply negb_true_iff, String.eqb_neq in Ht |].
    destruct (environ !! n); injection H as <-; simpl; auto.
  - intros [= <-]. now left.
Qed.

Lemma declares_secret_spec n env_def :
  declares_secret n env_def = true
  <-> entry_name env_def = PStr n /\ n <> "" /\ truthy (entry_secret env_def) = true.
Proof.
  unfold declares_secret, entry_name, entry_secret.
  destruct env_def as [| b | z | s | items | d]; simpl;
    try (split; [discriminate | intros (_ & _ & H); discriminate]).
  destruct (dict_get "name" d) as [[| | | m | |] |];
    try (split; [discriminate | intros (H & _); discriminate]);
    try (destruct (dict_get "secret" d);
         split; [discriminate | intros (H & _); discriminate]).
  destruct (dict_get "secret" d) as [sec |]; simpl.
  - rewrite !andb_true_iff, negb_true_iff, String.eqb_neq, String.eqb_eq.
    split.
    + intros [[Hne ->] Hs]. auto.
    + intros (Hm & Hne & Hs). injection Hm as ->. auto.
  - split; [discriminate | intros (_ & _ & H); discriminate].
Qed.

Lemma declare_all_NoDup defs acc acc' :
  NoDup (dict_keys (env_vars acc)) ->
  declare_all environ acc defs = Return acc' ->
  NoDup (dict_keys (env_vars acc')).
Proof.
  revert acc. induction defs as [| env_def rest IH]; intros acc Hnd H; simpl in H.
  - congruence.
  - destruct (declare environ acc env_def) as [acc1 |] eqn:Hd; [| discriminate].
    eapply IH; [| exact H].
    apply declare_cases in Hd. destruct Hd as [[_ ->] | (n & _ & _ & _ & Hd)]; [exact Hnd |].
    destruct (environ !! n); destruct Hd as [-> _]; [now apply dict_set_NoDup | exact Hnd].
Qed.

Lemma declare_all_secret defs acc acc' n :
  declare_all environ acc defs = Return acc' ->
  n ∈ secret_vars acc'
  <-> n ∈ secret_vars acc \/ existsb (declares_secret n) defs = true.
Proof.
  revert acc. induction defs as [| env_def rest IH]; intros acc H; simpl in H.
  - injection H as <-. simpl. intuition discriminate.
  - destruct (declare environ acc env_def) as [acc1 |] eqn:Hd; [| discriminate].
    rewrite (IH _ H). simpl. rewrite orb_true_iff, declares_secret_spec.
    apply declare_cases in Hd.
    destruct Hd as [[Hf ->] | (m & Hname & Hne & Hsec & _)].
    + assert (entry_name env_def <> PStr n \/ n = "") as Hno.
      { destruct (String.eqb n "") eqn:E; [right; now apply String.eqb_eq |].
        left. intros Hn. rewrite Hn in Hf. simpl in Hf. rewrite E in Hf.
        discriminate. }
      tauto.
    + rewrite Hsec, Hname. destruct (truthy (entry_secret env_def)).
      * rewrite elem_of_union, elem_of_singleton.
        split; [intros [[-> | ?] | ?]; auto | intros [? | [([= ->] & _) | ?]]; auto].
      * split; [tauto | intros [? | [(_ & _ & ?) | ?]]; auto; discriminate].
Qed.

Lemma declare_all_missing defs acc acc' n :
  declare_all environ acc defs = Return acc' ->
  n ∈ missing acc'
  <-> n ∈ missing acc
      \/ (PStr n ∈ map entry_name defs /\ n <> "" /\ environ !! n = None).
Proof.
  revert acc. induction defs as [| env_def rest IH]; intros acc H; simpl in H.
  - injection H as <-. simpl. split; [tauto |]. intros [H | (H & _)]; [exact H |].
    inversion H.
  - destruct (declare environ acc env_def) as [acc1 |] eqn:Hd; [| discriminate].
    rewrite (IH _ H). simpl. rewrite elem_of_cons.
    apply declare_cases in Hd.
    destruct Hd as [[Hf ->] | (m & Hname & Hne & _ & Henv)].
    + assert (PStr n <> entry_name env_def \/ n = "") as Hno.
      { destruct (String.eqb n "") eqn:E; [right; now apply String.eqb_eq |].
        left. intros Hn. rewrite <- Hn in Hf. simpl in Hf. rewrite E in Hf.
        discriminate. }
      tauto.
    + rewrite Hname. destruct (environ !! m) eqn:Em; destruct Henv as [_ ->].
      * split; [tauto |]. intros [? | ([[= ->] | ?] & ? & ?)]; auto; congruence.
      * rewrite elem_of_app, list_elem_of_singleton. split.
        -- intros [[? | ->] | ?]; [tauto | right; repeat split; auto | tauto].
        -- intros [? | ([[= ->] | ?] & ? & ?)]; tauto.
Qed.

Lemma declare_all_app defs defs' acc :
  declare_all environ acc (defs ++ defs')
  = match declare_all environ acc defs with
    | Return acc' => declare_all environ acc' defs'
    | Raise e => Raise e
    end.
Proof.
  revert acc. induction defs as [| env_def rest IH]; intros acc; simpl; [reflexivity |].
  destruct (declare environ acc env_def); auto.
Qed.

(** The objects made from a dict with distinct keys: the one named [k] holds
    the dict's value for [k], and there is no other of that name. *)
Lemma objects_of_dict (flag : string -> bool) (d : list (string * string)) k v :
  NoDup (dict_keys d) -> dict_get k d = Some v ->
  let l := map (fun item => EnvVar (fst item) (snd item) (flag (fst item))) d in
  EnvVar k v (flag k) ∈ l
  /\ forall e, e ∈ l -> var_name e = k -> e = EnvVar k v (flag k).
Proof.
  intros Hnd Hget l. split.
  - apply (list_elem_of_fmap_2 (fun item => EnvVar (fst item) (snd item) (flag (fst item)))
             d (k, v)).
    now apply dict_get_elem_of.
  - intros e He Hname. apply list_elem_of_fmap in He.
    destruct He as ([k' v'] & -> & Hin). simpl in *. subst k'.
    apply dict_get_elem_of in Hin; [| exact Hnd]. congruence.
Qed.

(** C3. When reconciliation returns a list, a variable supplied by a CLI
    override [KEY=VALUE] is in the list with the override's value (the last
    one, if the key is overridden more than once) and under no other value,
    whether or not the YAML declares it and whatever the process environment
    holds for it. *)
Theorem override_takes_precedence yaml_content pre item post k v w l w' :
  gather_environment_variables environ yaml_safe_load yaml_content
    (pre ++ item :: post) w = (Return l, w') ->
  str_split1 "=" item = [k; v] ->
  Forall (fun later => override_key later <> k) post ->
  exists s,
    EnvVar k v s ∈ l
    /\ forall e, e ∈ l -> var_name e = k -> e = EnvVar k v s.
Proof.
  intros Hrun Hsplit Hpost.
  destruct (gather_returns _ _ _ _ _ Hrun) as (decls & Hdecl).
  rewrite (gather_declares _ _ _ _ Hdecl) in Hrun.
  apply reconcile_returns in Hrun.
  destruct Hrun as [(_ & _ & d & Hd & ->)
                   | (_ & defs & acc & d & _ & Hacc & Hd & _ & -> & _)].
  - assert (NoDup (dict_keys d)) as Hnd.
    { eapply apply_overrides_NoDup; [| exact Hd]. apply NoDup_nil_2. }
    assert (dict_get k d = Some v) as Hget
      by (eapply apply_overrides_last; eauto).
    exists false. exact (objects_of_dict (fun _ => false) d k v Hnd Hget).
  - assert (NoDup (dict_keys d)) as Hnd.
    { eapply apply_overrides_NoDup; [| exact Hd].
      eapply declare_all_NoDup; [| exact Hacc]. apply NoDup_nil_2. }
    assert (dict_get k d = Some v) as Hget
      by (eapply apply_overrides_last; eauto).
    exists (bool_decide (k ∈ secret_vars acc)).
    exact (objects_of_dict (fun n => bool_decide (n ∈ secret_vars acc))
             d k v Hnd Hget).
Qed.

(** The secret flag of every returned object is the one its name has in the
    declarations. *)
Lemma secret_flag_declared yaml_content env_declarations overrides w l w' :
  declares yaml_safe_load yaml_content env_declarations ->
  gather_environment_variables environ yaml_safe_load yaml_content overrides w
  = (Return l, w') ->
  forall e, e ∈ l ->
    var_secret e = declared_secret env_declarations (var_name e).
Proof.
  intros Hdecl Hrun e He.
  rewrite (gather_declares _ _ _ _ Hdecl) in Hrun.
  apply reconcile_returns in Hrun. unfold declared_secret, declared_items.
  destruct Hrun as [(-> & _ & d & _ & ->)
                   | (-> & defs & acc & d & -> & Hacc & _ & _ & -> & _)];
    apply list_elem_of_fmap in He; destruct He as (item & -> & _); simpl.
  - reflexivity.
  - destruct (existsb (declares_secret (fst item)) defs) eqn:E.
    + apply bool_decide_eq_true. apply (declare_all_secret _ _ _ _ Hacc). now right.
    + apply bool_decide_eq_false. intros Hin.
      apply (declare_all_secret _ _ _ _ Hacc) in Hin. simpl in Hin.
      destruct Hin as [Hin | Hin]; [set_solver | congruence].
Qed.

Lemma nameless_declare env_def acc :
  nameless env_def = true -> declare environ acc env_def = Return acc.
Proof.
  unfold nameless, declare, entry_name.
  destruct env_def as [| | | | | d]; try discriminate.
  intros ->. reflexivity.
Qed.

(** C10. A mapping entry of the declaration list without a usable name (no
    ["name"] key, or a name that is empty or null) leaves the three
    accumulators of the loop as they are, whatever its [secret] says: the
    list reconciliation returns, or the error it raises, is the one it gives
    for the declarations without that entry, and so is everything it prints
    as long as other entries remain. *)
Theorem nameless_declaration_skipped body1 body2 pre env_def post overrides w :
  nameless env_def = true ->
  declares yaml_safe_load body1 (PList (pre ++ env_def :: post)) ->
  declares yaml_safe_load body2 (PList (pre ++ post)) ->
  let run := gather_environment_variables environ yaml_safe_load in
  (forall acc, declare environ acc env_def = Return acc)
  /\ fst (run body1 overrides w) = fst (run body2 overrides w)
  /\ (pre ++ post <> [] -> run body1 overrides w = run body2 overrides w).
Proof.
  intros Hskip H1 H2 run. unfold run.
  split; [intros acc; now apply nameless_declare |].
  rewrite (gather_declares _ _ _ _ H1), (gather_declares _ _ _ _ H2).
  assert (forall acc, declare_all environ acc (pre ++ env_def :: post)
                      = declare_all environ acc (pre ++ post)) as Hloop.
  { intros acc. rewrite !declare_all_app.
    destruct (declare_all environ acc pre) as [acc1 |]; [| reflexivity].
    simpl. now rewrite nameless_declare. }
  assert (pre ++ post <> [] ->
          reconcile environ (PList (pre ++ env_def :: post)) overrides w
          = reconcile environ (PList (pre ++ post)) overrides w) as Hsame.
  { intros Hne. unfold reconcile.
    replace (truthy (PList (pre ++ env_def :: post))) with true
      by (destruct pre; reflexivity).
    replace (truthy (PList (pre ++ post))) with true
      by (simpl; destruct (pre ++ post); congruence).
    simpl. unfold bind, lift. now rewrite Hloop. }
  split; [| exact Hsame].
  destruct (pre ++ post) as [| x rest] eqn:Hrest; [| rewrite Hsame; congruence].
  apply app_eq_nil in Hrest. destruct Hrest as [-> ->]. simpl.
  unfold reconcile. cbn [truthy negb py_iter]. unfold bind, lift, ret.
  cbn [declare_all]. rewrite nameless_declare by exact Hskip.
  cbn [env_vars missing secret_vars].
  destruct (apply_overrides overrides []) as [d |]; [| reflexivity].
  assert (forall items : list (string * string),
            map (fun item => EnvVar (fst item) (snd item)
                               (bool_decide (fst item ∈ (∅ : gset string)))) items
            = map (fun item => EnvVar (fst item) (snd item) false) items) as Hflags.
  { intros items. apply map_ext. intros item. f_equal. }
  destruct d as [| item d]; cbn [fst]; [reflexivity |].
  unfold click_echo. rewrite echo_all_spec. cbn [fst]. now rewrite Hflags.
Qed.

Lemma append_empty_r (s : string) : (s ++ "")%string = s.
Proof.
  induction s as [| c s IH]; [reflexivity |].
  change (String c (s ++ "")%string = String c s). now rewrite IH.
Qed.

Lemma leb_refl (s : string) : String.leb s s = true.
Proof. now destruct (String.leb_total s s). Qed.

#[local] Instance item_le_total : Total item_le.
Proof.
  intros a b. unfold item_le, item_leb.
  rewrite (String.eqb_sym (fst b) (fst a)).
  destruct (String.eqb (fst a) (fst b)).
  - destruct (String.leb_total (snd a) (snd b)) as [-> | ->]; simpl; auto.
  - destruct (String.leb_total (fst a) (fst b)) as [-> | ->]; simpl; auto.
Qed.

Lemma item_le_name (flag : string -> bool) (a b : string * string) :
  item_le a b ->
  name_le (EnvVar (fst a) (snd a) (flag (fst a)))
          (EnvVar (fst b) (snd b) (flag (fst b))).
Proof.
  unfold item_le, item_leb, name_le. simpl.
  destruct (String.eqb (fst a) (fst b)) eqn:E.
  - apply String.eqb_eq in E. rewrite E. intros _. apply leb_refl.
  - apply Is_true_eq_true.
Qed.

Lemma display_line_summary (secrets : gset string) (item : string * string) :
  display_line secrets item
  = summary_line (EnvVar (fst item) (snd item)
                         (bool_decide (fst item ∈ secrets))).
Proof.
  unfold display_line, summary_line. simpl.
  destruct (bool_decide (fst item ∈ secrets)); [reflexivity |].
  now rewrite append_empty_r.
Qed.

(** C8, as the code has it. When the YAML declares environment variables and
    reconciliation returns a non-empty list, it prints a heading, then one
    line for each object of the list, in the order of their names, then an
    empty line; the line of a secret variable is its name followed by
    [*** (secret)], whatever its value, and the line of any other variable
    shows the value as it is. Without declarations nothing is printed. *)
Theorem summary_of_declared_variables yaml_content env_declarations overrides
    w l w' :
  declares yaml_safe_load yaml_content env_declarations ->
  gather_environment_variables environ yaml_safe_load yaml_content overrides w
  = (Return l, w') ->
  (truthy env_declarations = true -> l <> [] ->
   exists ordered,
     ordered ≡ₚ l
     /\ Sorted name_le ordered
     /\ echoed w'
        = echoed w ++ [out (newline ++ "Environment variables:")%string]
          ++ map summary_line ordered ++ [out ""])
  /\ (truthy env_declarations = false -> echoed w' = echoed w).
Proof.
  intros Hdecl Hrun.
  rewrite (gather_declares _ _ _ _ Hdecl) in Hrun.
  apply reconcile_returns in Hrun.
  destruct Hrun as [(Ht & -> & _)
                   | (Ht & defs & acc & d & _ & _ & _ & _ & -> & ->)].
  - split; [congruence | reflexivity].
  - split; [| congruence]. intros _ Hne.
    set (object := fun item : string * string =>
                     EnvVar (fst item) (snd item)
                            (bool_decide (fst item ∈ secret_vars acc))).
    exists (map object (sorted d)). split; [| split].
    + apply Permutation_map. apply merge_sort_Permutation.
    + apply (Sorted_fmap object item_le name_le).
      * intros a b. apply (item_le_name (fun n => bool_decide (n ∈ secret_vars acc))).
      * apply Sorted_merge_sort. apply item_le_total.
    + simpl. unfold summary. destruct d as [| item d]; [contradiction |].
      rewrite map_map. f_equal. f_equal. f_equal.
      apply map_ext. intros a. apply display_line_summary.
Qed.

(** Whether reconciliation fails for missing variables is decided by the
    declarations and the process environment alone: once a declared name has
    no value in the environment, no list of well-formed overrides prevents
    the error. *)
Lemma missing_decided_by_environment env_declarations defs acc overrides d w :
  truthy env_declarations = true ->
  py_iter env_declarations = Return defs ->
  declare_all environ (Gathered [] [] ∅) defs = Return acc ->
  apply_overrides overrides (env_vars acc) = Return d ->
  reconcile environ env_declarations overrides w
  = match missing acc with
    | first :: _ =>
        (Raise (ClickException (missing_message (missing acc) first)), w)
    | [] =>
        (Return (map (fun item =>
                        EnvVar (fst item) (snd item)
                               (bool_decide (fst item ∈ secret_vars acc))) d),
         World (echoed w ++ summary (secret_vars acc) d) (sent w) (answers w))
    end.
Proof.
  intros Ht Hdefs Hacc Hd. unfold reconcile, bind, lift, ret, raise.
  rewrite Ht, Hdefs, Hacc, Hd. cbn [negb].
  destruct (missing acc); [| reflexivity].
  destruct d as [| item d].
  - unfold summary. rewrite app_nil_r. now destruct w.
  - unfold click_echo. rewrite echo_all_spec. simpl.
    unfold summary. now rewrite <- !app_assoc.
Qed.

End Reconciliation.

(** C4. The secret flag of every object reconciliation returns is the flag
    its name has in the YAML declarations: true exactly when a mapping entry
    with that name carries a truthy [secret], hence false for a name declared
    in the bare form or not declared at all. Neither the process environment
    nor the overrides enter: two runs on the same YAML give the same flag to
    the same name, wherever its value comes from. *)
Theorem secret_flag_from_declaration (environ : gmap string string)
    (yaml_safe_load : string -> string + pyval) yaml_content env_declarations
    overrides w l w' :
  declares yaml_safe_load yaml_content env_declarations ->
  gather_environment_variables environ yaml_safe_load yaml_content overrides w
  = (Return l, w') ->
  (forall e, e ∈ l ->
     var_secret e = declared_secret env_declarations (var_name e))
  /\ (forall environ2 overrides2 w2 l2 w2',
        gather_environment_variables environ2 yaml_safe_load yaml_content
          overrides2 w2 = (Return l2, w2') ->
        forall e e2, e ∈ l -> e2 ∈ l2 -> var_name e = var_name e2 ->
          var_secret e = var_secret e2).
Proof.
  intros Hdecl Hrun. split.
  - now apply (secret_flag_declared environ yaml_safe_load yaml_content
                 env_declarations overrides w l w').
  - intros environ2 overrides2 w2 l2 w2' Hrun2 e e2 He He2 Hname.
    rewrite (secret_flag_declared _ _ _ _ _ _ _ _ Hdecl Hrun e He).
    rewrite (secret_flag_declared _ _ _ _ _ _ _ _ Hdecl Hrun2 e2 He2).
    now rewrite Hname.
Qed.

(** ** The test suite's scenarios, run on the model *)

Lemma secret_flag_from_declaration_witness :
  (forall e, e ∈ [EnvVar "API_KEY" "cli-override" true] ->
     var_secret e
     = declared_secret (PList [secret_declaration "API_KEY"]) (var_name e))
  /\ (forall environ2 overrides2 w2 l2 w2',
        gather_environment_variables environ2
          (loads (workflow_doc [secret_declaration "API_KEY"])) "" overrides2 w2
        = (Return l2, w2') ->
        forall e e2, e ∈ [EnvVar "API_KEY" "cli-override" true] -> e2 ∈ l2 ->
          var_name e = var_name e2 -> var_secret e = var_secret e2).
Proof.
  eapply (secret_flag_from_declaration {["API_KEY" := "env-key"]}
            (loads (workflow_doc [secret_declaration "API_KEY"])) ""
            (PList [secret_declaration "API_KEY"]) ["API_KEY=cli-override"]
            (initial [])).
  - exists (workflow_doc [secret_declaration "API_KEY"]).
    eexists. repeat split; reflexivity.
  - vm_compute. reflexivity.
Defined.

Lemma override_takes_precedence_witness :
  exists s,
    EnvVar "API_KEY" "cli-override" s
      ∈ [EnvVar "API_KEY" "cli-override" true; EnvVar "EXTRA" "1" false]
    /\ forall e,
         e ∈ [EnvVar "API_KEY" "cli-override" true; EnvVar "EXTRA" "1" false] ->
         var_name e = "API_KEY" -> e = EnvVar "API_KEY" "cli-override" s.
Proof.
  eapply (override_takes_precedence {["API_KEY" := "env-key"]}
            (loads (workflow_doc [secret_declaration "API_KEY"])) ""
            ["API_KEY=first"] "API_KEY=cli-override" ["EXTRA=1"]
            "API_KEY" "cli-override" (initial [])).
  - vm_compute. reflexivity.
  - reflexivity.
  - repeat constructor; vm_compute; discriminate.
Defined.

Lemma nameless_declaration_skipped_witness :
  (forall acc,
     declare debug_level acc (PDict [("secret", PBool true)]) = Return acc)
  /\ fst (gather_environment_variables debug_level sample_bodies "with" []
            (initial []))
     = fst (gather_environment_variables debug_level sample_bodies "without" []
              (initial []))
  /\ ([PStr "LOG_LEVEL"] ++ [] <> [] ->
      gather_environment_variables debug_level sample_bodies "with" []
        (initial [])
      = gather_environment_variables debug_level sample_bodies "without" []
          (initial [])).
Proof.
  apply (nameless_declaration_skipped debug_level sample_bodies "with" "without"
           [PStr "LOG_LEVEL"] (PDict [("secret", PBool true)]) [] [] (initial [])).
  - reflexivity.
  - eexists. eexists. repeat split; reflexivity.
  - eexists. eexists. repeat split; reflexivity.
Defined.

Lemma summary_of_declared_variables_witness :
  (truthy (PList [PStr "LOG_LEVEL"; secret_declaration "API_KEY"]) = true ->
   [EnvVar "LOG_LEVEL" "info" false; EnvVar "API_KEY" "secret-key-123" true]
   <> [] ->
   exists ordered,
     ordered ≡ₚ [EnvVar "LOG_LEVEL" "info" false;
                 EnvVar "API_KEY" "secret-key-123" true]
     /\ Sorted name_le ordered
     /\ [out (newline ++ "Environment variables:")%string;
         out "  API_KEY: *** (secret)"; out "  LOG_LEVEL: info"; out ""]
        = echoed (initial [])
          ++ [out (newline ++ "Environment variables:")%string]
          ++ map summary_line ordered ++ [out ""])
  /\ (truthy (PList [PStr "LOG_LEVEL"; secret_declaration "API_KEY"]) = false ->
      [out (newline ++ "Environment variables:")%string;
       out "  API_KEY: *** (secret)"; out "  LOG_LEVEL: info"; out ""]
      = echoed (initial [])).
Proof.
  apply (summary_of_declared_variables test_environment
           (loads (workflow_doc [PStr "LOG_LEVEL"; secret_declaration "API_KEY"]))
           "" (PList [PStr "LOG_LEVEL"; secret_declaration "API_KEY"]) []
           (initial [])
           [EnvVar "LOG_LEVEL" "info" false;
            EnvVar "API_KEY" "secret-key-123" true]
           (World [out (newline ++ "Environment variables:")%string;
                   out "  API_KEY: *** (secret)"; out "  LOG_LEVEL: info";
                   out ""] [] [])).
  - eexists. eexists. repeat split; reflexivity.
  - vm_compute. reflexivity.
Defined.

(** C1, on the code: a declared variable that has no value in the process
    environment makes reconciliation fail although an override supplies it.
    The error is the one whose text recommends that very override; the
    [deploy] command ends with status 1 and nothing is sent. *)
Lemma override_does_not_supply_missing :
  gather_environment_variables ∅
    (loads (workflow_doc [secret_declaration "DATABASE_URL"])) ""
    ["DATABASE_URL=postgres://db"] (initial [])
  = (Raise (ClickException (missing_message ["DATABASE_URL"] "DATABASE_URL")),
     initial [])
  /\ str_infix "etlr deploy workflow.yaml -e DATABASE_URL=value"
       (missing_message ["DATABASE_URL"] "DATABASE_URL") = true
  /\ exit_code
       (fst (deploy "https://api" ∅ sample_server
               (loads (workflow_doc [secret_declaration "DATABASE_URL"]))
               (fun _ => true) sample_files (Some "test-key")
               (Some "workflow.yaml") None None None
               ["DATABASE_URL=postgres://db"] (initial []))) = 1
  /\ sent (snd (deploy "https://api" ∅ sample_server
                  (loads (workflow_doc [secret_declaration "DATABASE_URL"]))
                  (fun _ => true) sample_files (Some "test-key")
                  (Some "workflow.yaml") None None None
                  ["DATABASE_URL=postgres://db"] (initial []))) = [].
Proof. repeat split; vm_compute; reflexivity. Qed.

(** C8, as the specification words it, fails twice: without declarations the
    overrides are returned and no summary is printed, and with declarations
    the value of a secret variable is printed when another variable holds the
    same value. *)
Lemma summary_as_specified_fails :
  ~ summary_as_specified ∅ (loads plain_doc) "" ["API_KEY=test"] (initial [])
  /\ ~ summary_as_specified
        (<["TOKEN" := "hunter2"]> {["BACKUP_TOKEN" := "hunter2"]})
        (loads (workflow_doc [secret_declaration "TOKEN"; PStr "BACKUP_TOKEN"]))
        "" [] (initial []).
Proof.
  split; intros Hspec.
  - destruct (Hspec [EnvVar "API_KEY" "test" false] (initial []))
      as [(ordered & _ & _ & Hecho) _]; [reflexivity | discriminate |].
    simpl in Hecho. discriminate.
  - edestruct Hspec as [_ Hmask]; [vm_compute; reflexivity | discriminate |].
    specialize (Hmask (EnvVar "TOKEN" "hunter2" true)).
    assert (true = false) as Habs; [| discriminate].
    rewrite <- Hmask; [vm_compute; reflexivity | | reflexivity].
    apply list_elem_of_here.
Qed.

(** * Properties of the commands *)

Section Quiet.

Context {A B : Type}.

Lemma quiet_ret (a : A) : quiet (ret a).
Proof. intros w. auto. Qed.

Lemma quiet_raise (e : exn) : quiet (@raise A e).
Proof. intros w. auto. Qed.

Lemma quiet_lift (o : outcome A) : quiet (lift o).
Proof. intros w. auto. Qed.

Lemma quiet_bind (m : M A) (k : A -> M B) :
  quiet m -> (forall a, quiet (k a)) -> quiet (bind m k).
Proof.
  intros Hm Hk w. unfold bind. specialize (Hm w).
  destruct (m w) as [[a | e] w1]; simpl in *; [| exact Hm].
  destruct (Hk a w1) as [H1 H2]. destruct Hm as [<- <-]. auto.
Qed.

Lemma quiet_try (body : M A) (handler : exn -> option (M A)) :
  quiet body -> (forall e h, handler e = Some h -> quiet h) ->
  quiet (try_except body handler).
Proof.
  intros Hb Hh w. unfold try_except. specialize (Hb w).
  destruct (body w) as [[a | e] w1]; simpl in *; [exact Hb |].
  destruct (handler e) as [h |] eqn:E; [| exact Hb].
  destruct (Hh e h E w1) as [H1 H2]. destruct Hb as [<- <-]. auto.
Qed.

(** After a computation, a quiet continuation adds no request. *)
Lemma bind_quiet_sent (m : M A) (k : A -> M B) (w : world) :
  (forall a, quiet (k a)) ->
  sent (snd (bind m k w)) = sent (snd (m w))
  /\ answers (snd (bind m k w)) = answers (snd (m w)).
Proof.
  intros Hk. unfold bind. destruct (m w) as [[a | e] w1]; simpl; [| auto].
  apply Hk.
Qed.

Lemma try_quiet_sent (body : M A) (handler : exn -> option (M A)) (w : world) :
  (forall e h, handler e = Some h -> quiet h) ->
  sent (snd (try_except body handler w)) = sent (snd (body w))
  /\ answers (snd (try_except body handler w)) = answers (snd (body w)).
Proof.
  intros Hh. unfold try_except. destruct (body w) as [[a | e] w1]; simpl; [auto |].
  destruct (handler e) as [h |] eqn:E; [| auto]. apply (Hh e h E).
Qed.

End Quiet.

Lemma quiet_echo (e : echo) : quiet (click_echo e).
Proof. intros w. auto. Qed.

Lemma quiet_handle_api_error {A : Type} message status_code details :
  quiet (@handle_api_error A message status_code details).
Proof.
  unfold handle_api_error.
  apply quiet_bind; [apply quiet_echo | intros _].
  apply quiet_bind.
  { destruct status_code as [code |]; [| apply quiet_ret].
    destruct (truthy (PInt code)); [apply quiet_echo | apply quiet_ret]. }
  intros _. apply quiet_bind; [| intros _; apply quiet_raise].
  destruct (truthy details); [apply quiet_echo | apply quiet_ret].
Qed.

Lemma quiet_except_APIError {A : Type} (e : exn) (h : M A) :
  except_APIError e = Some h -> quiet h.
Proof.
  destruct e; try discriminate. intros [= <-]. apply quiet_handle_api_error.
Qed.

(** Every failure of [handle_api_error] is exit status 1. *)
Lemma handle_api_error_exits {A : Type} message status_code details w :
  fst (@handle_api_error A message status_code details w) = Raise (SystemExit 1).
Proof.
  unfold handle_api_error, bind, click_echo, sys_exit, raise, ret. simpl.
  destruct status_code as [code |]; simpl;
    [destruct (negb (code =? 0)); simpl |]; destruct (truthy details); reflexivity.
Qed.

Section Commands.

Variable API_BASE_URL : string.
Variable environ : gmap string string.
Variable post : list request -> request -> http_result.
Variable yaml_safe_load : string -> string + pyval.
Variable path_exists : string -> bool.
Variable read_text : string -> string + string.

Lemma get_client_ok key client w :
  WorkflowsClient_init API_BASE_URL environ key None = Return client ->
  get_client API_BASE_URL environ key w = (Return client, w).
Proof. intros H. unfold get_client, try_except, lift. now rewrite H. Qed.

Lemma quiet_get_client key : quiet (get_client API_BASE_URL environ key).
Proof.
  unfold get_client. apply quiet_try; [apply quiet_lift |].
  intros e h. destruct e; try discriminate. intros [= <-].
  apply quiet_bind; [apply quiet_echo | intros _; apply quiet_raise].
Qed.

(** A request followed by printing only: exactly that request is sent. *)
Lemma request_then_quiet {A : Type} client payload (k : pyval -> M A) w :
  (forall a, quiet (k a)) ->
  sent (snd (try_except (bind (_request post client payload) k)
                        except_APIError w))
  = sent w ++ [client_request client payload].
Proof.
  intros Hk.
  destruct (try_quiet_sent (bind (_request post client payload) k)
              except_APIError w (@quiet_except_APIError A)) as [-> _].
  destruct (bind_quiet_sent (_request post client payload) k w Hk) as [-> _].
  apply _request_sent.
Qed.

Lemma click_confirm_answer prompt w answer rest :
  answers w = answer :: rest ->
  click_confirm prompt w = (Return answer, asked prompt rest w).
Proof. intros H. unfold click_confirm, asked. now rewrite H. Qed.

Lemma delete_workflow_identified client workflow_id name stage payload :
  identified_payload "delete" (identifier_policy workflow_id name stage)
  = Some payload ->
  delete_workflow post client workflow_id name stage
  = _request post client payload.
Proof.
  unfold identifier_policy, delete_workflow.
  destruct (truthy workflow_id); [| destruct (truthy name), (truthy stage)];
    simpl; intros [= <-]; reflexivity.
Qed.

Lemma delete_workflow_unidentified client workflow_id name stage :
  identified_payload "delete" (identifier_policy workflow_id name stage) = None ->
  delete_workflow post client workflow_id name stage = raise missing_identifier.
Proof.
  unfold identifier_policy, delete_workflow.
  destruct (truthy workflow_id); [| destruct (truthy name), (truthy stage)];
    simpl; intros [=]; reflexivity.
Qed.

Lemma quiet_report_restored (version : Z) (result : pyval) :
  quiet (report_restored version result).
Proof.
  unfold report_restored.
  apply quiet_bind; [apply quiet_echo | intros _].
  apply quiet_bind; [| intros _; apply quiet_echo].
  destruct result as [| b | z | text | items | d]; try apply quiet_raise.
  - destruct (str_infix "workflow" text); [apply quiet_raise | apply quiet_ret].
  - destruct (existsb _ items); [apply quiet_raise | apply quiet_ret].
  - destruct (dict_get "workflow" d) as [workflow |]; [| apply quiet_ret].
    apply quiet_bind; [apply quiet_lift | intros new_version].
    destruct (truthy new_version); [apply quiet_echo | apply quiet_ret].
Qed.

(** C7, as the code has it. [delete] and [restore] without [--yes] ask for
    confirmation first. On a negative answer the command returns at once:
    exit status 0 and the list of requests sent is unchanged. On an
    affirmative answer the command goes on exactly as it does under [--yes];
    with a client at hand, [restore] then sends exactly one request, and so
    does [delete] when its identifier resolves (the identifier policy of the
    client decides on the payload); a [delete] without identifier ends with
    status 1 and sends nothing. *)
Theorem confirmation_decides key workflow_id name stage restore_id version
    answer rest w :
  answers w = answer :: rest ->
  let deleting := delete API_BASE_URL environ post key workflow_id name stage in
  let restoring := restore API_BASE_URL environ post key restore_id version in
  let identifier :=
    identified_payload "delete"
      (identifier_policy (of_optional workflow_id) (of_optional name)
                         (of_optional stage)) in
  if answer then
    (exists prompt, deleting false w = deleting true (asked prompt rest w))
    /\ (exists prompt, restoring false w = restoring true (asked prompt rest w))
    /\ (forall client,
          WorkflowsClient_init API_BASE_URL environ key None = Return client ->
          (forall payload,
             identifier = Some payload ->
             sent (snd (deleting false w))
             = sent w ++ [client_request client payload])
          /\ (identifier = None ->
              sent (snd (deleting false w)) = sent w
              /\ exit_code (fst (deleting false w)) = 1)
          /\ sent (snd (restoring false w))
             = sent w
               ++ [client_request client
                     (PDict [("action", PStr "restore_version");
                             ("workflow_id", PStr restore_id);
                             ("version", PInt version)])])
  else
    (fst (deleting false w) = Return tt
     /\ exit_code (fst (deleting false w)) = 0
     /\ sent (snd (deleting false w)) = sent w)
    /\ (fst (restoring false w) = Return tt
        /\ exit_code (fst (restoring false w)) = 0
        /\ sent (snd (restoring false w)) = sent w).
Proof.
  intros Hans deleting restoring identifier. destruct answer.
  - assert (exists prompt, deleting false w = deleting true (asked prompt rest w))
      as Hd.
    { eexists. unfold deleting, delete. cbn [negb]. unfold bind at 1 2.
      rewrite (click_confirm_answer _ _ _ _ Hans). reflexivity. }
    assert (exists prompt, restoring false w = restoring true (asked prompt rest w))
      as Hr.
    { eexists. unfold restoring, restore. cbn [negb]. unfold bind at 1 2.
      rewrite (click_confirm_answer _ _ _ _ Hans). reflexivity. }
    split; [exact Hd |]. split; [exact Hr |].
    intros client Hclient. split; [| split].
    + intros payload Hpayload. destruct Hd as [prompt ->].
      unfold deleting, delete. cbn [negb]. unfold bind at 1 2. unfold ret at 1.
      cbn [negb]. unfold bind at 1. rewrite (get_client_ok _ _ _ Hclient).
      rewrite (delete_workflow_identified _ _ _ _ _ Hpayload).
      apply (request_then_quiet client payload
               (fun result =>
                  click_echo (styled false "green" [Lit "✓ Workflow deleted"]) ;;;
                  click_echo (format_output result))
               (asked prompt rest w)).
      intros a. apply quiet_bind; [apply quiet_echo | intros _; apply quiet_echo].
    + intros Hnone. destruct Hd as [prompt ->].
      assert (deleting true (asked prompt rest w)
              = handle_api_error
                  (PStr "Must provide either workflow_id or both name and stage")
                  None PNone (asked prompt rest w)) as ->.
      { unfold deleting, delete. cbn [negb]. unfold bind at 1 2. unfold ret at 1.
        cbn [negb]. unfold bind at 1. rewrite (get_client_ok _ _ _ Hclient).
        now rewrite (delete_workflow_unidentified _ _ _ _ Hnone). }
      split.
      * apply (quiet_handle_api_error (A := unit) _ None PNone (asked prompt rest w)).
      * now rewrite handle_api_error_exits.
    + destruct Hr as [prompt ->].
      unfold restoring, restore. cbn [negb]. unfold bind at 1 2. unfold ret at 1.
      cbn [negb]. unfold bind at 1. rewrite (get_client_ok _ _ _ Hclient).
      unfold restore_version.
      refine (request_then_quiet client _ _ (asked prompt rest w) _).
      intros a. apply quiet_report_restored.
  - assert (exists w', deleting false w = (Return tt, w') /\ sent w' = sent w)
      as (wd & -> & Hd).
    { eexists. split.
      - unfold deleting, delete. cbn [negb]. unfold bind at 1 2.
        rewrite (click_confirm_answer _ _ _ _ Hans). reflexivity.
      - reflexivity. }
    assert (exists w', restoring false w = (Return tt, w') /\ sent w' = sent w)
      as (wr & -> & Hr).
    { eexists. split.
      - unfold restoring, restore. cbn [negb]. unfold bind at 1 2.
        rewrite (click_confirm_answer _ _ _ _ Hans). reflexivity.
      - reflexivity. }
    simpl. auto.
Qed.

(** ** The file-based [deploy] *)

Lemma prepare_ok yaml_file env w path content env_dict w1 :
  deploy_file path_exists yaml_file = Some path ->
  read_text path = inr content ->
  gather_environment_variables environ yaml_safe_load content env w
  = (Return env_dict, w1) ->
  prepare environ yaml_safe_load path_exists read_text yaml_file env w
  = (Return (content, env_dict), w1).
Proof.
  intros Hfile Hread Hgather. unfold prepare, deploy_file in *.
  destruct yaml_file as [file |].
  - injection Hfile as ->. unfold bind at 1. unfold ret at 1.
    rewrite Hread. unfold bind at 1. unfold ret at 1.
    unfold bind, try_except. now rewrite Hgather.
  - destruct (path_exists "workflow.yaml"); [| discriminate].
    injection Hfile as <-. cbn [negb]. unfold bind at 1. unfold ret at 1.
    rewrite Hread. unfold bind at 1. unfold ret at 1.
    unfold bind, try_except. now rewrite Hgather.
Qed.

Lemma quiet_prepare yaml_file env :
  quiet (prepare environ yaml_safe_load path_exists read_text yaml_file env).
Proof.
  unfold prepare. apply quiet_bind.
  { destruct yaml_file; [apply quiet_ret |].
    destruct (negb (path_exists "workflow.yaml")); [| apply quiet_ret].
    apply quiet_bind; [apply quiet_echo | intros _; apply quiet_raise]. }
  intros file. apply quiet_bind.
  { destruct (read_text file); [| apply quiet_ret].
    apply quiet_bind; [apply quiet_echo | intros _; apply quiet_raise]. }
  intros content. apply quiet_bind; [| intros a; apply quiet_ret].
  apply quiet_try.
  - intros w0. apply gather_sent.
  - intros e h. destruct e; try discriminate. intros [= <-].
    apply quiet_bind; [apply quiet_echo | intros _; apply quiet_raise].
Qed.

(** What follows the upsert in [push] only prints. *)
Lemma quiet_read_push_result (push_result : pyval) :
  quiet (read_push_result push_result).
Proof.
  unfold read_push_result.
  apply quiet_bind; [apply quiet_lift | intros created].
  apply quiet_bind;
    [destruct (truthy created); apply quiet_echo | intros _].
  apply quiet_bind; [apply quiet_lift | intros workflow_info].
  apply quiet_bind; [apply quiet_lift | intros workflow_id].
  apply quiet_bind; [apply quiet_lift | intros deploy_name].
  apply quiet_bind; [apply quiet_lift | intros deploy_stage].
  destruct (negb (truthy workflow_id)); [| apply quiet_ret].
  apply quiet_bind; [apply quiet_echo | intros _; apply quiet_raise].
Qed.

(** [push] sends the upsert request and nothing else, whatever the answer. *)
Lemma push_sent client content env_dict stage w :
  sent (snd (push post client content env_dict stage w))
  = sent w ++ [upsert_request client content env_dict stage].
Proof.
  unfold push.
  match goal with
  | |- sent (snd (try_except ?body ?h ?w0)) = _ =>
      destruct (try_quiet_sent body h w0
                  (@quiet_except_APIError (pyval * pyval * pyval))) as [-> _]
  end.
  unfold bind at 1.
  assert (exists w2,
            (if truthy (of_optional stage) then
               click_echo (Echo false None
                 [Lit "Pushing workflow (stage override: ";
                  Str (of_optional stage); Lit ")..."])
             else click_echo (out "Pushing workflow...")) w = (Return tt, w2)
            /\ sent w2 = sent w) as (w2 & -> & <-).
  { destruct (truthy (of_optional stage)); eexists; split; reflexivity. }
  match goal with
  | |- sent (snd (bind ?m ?k ?w0)) = _ =>
      destruct (bind_quiet_sent m k w0 quiet_read_push_result) as [-> _]
  end.
  apply _request_sent.
Qed.

(** [start_deployment] sends the deploy request its identifiers resolve to,
    or nothing when they do not resolve. *)
Lemma start_deployment_sent client workflow_id deploy_name deploy_stage w :
  sent (snd (start_deployment post client workflow_id deploy_name deploy_stage w))
  = sent w
    ++ match identified_payload "deploy"
               (identifier_policy workflow_id deploy_name deploy_stage) with
       | Some payload => [client_request client payload]
       | None => []
       end.
Proof.
  unfold start_deployment.
  match goal with
  | |- sent (snd (try_except ?body ?h ?w0)) = _ =>
      destruct (try_quiet_sent body h w0 (@quiet_except_APIError unit))
        as [-> _]
  end.
  unfold bind at 1. unfold click_echo at 1.
  match goal with
  | |- sent (snd (bind ?m ?k ?w2)) = _ =>
      assert (forall a, quiet (k a)) as Hk
  end.
  { intros a. apply quiet_bind; [apply quiet_echo | intros _; apply quiet_echo]. }
  match goal with
  | |- sent (snd (bind ?m ?k ?w2)) = _ =>
      pose proof (bind_quiet_sent m k w2 Hk) as [Hsent _]
  end.
  rewrite Hsent. clear Hsent Hk.
  unfold deploy_workflow, identifier_policy.
  destruct (truthy workflow_id); [| destruct (truthy deploy_name),
                                      (truthy deploy_stage)];
    cbn [andb identified_payload]; unfold bind, ret, raise; cbn [fst snd];
    first [ rewrite _request_sent; reflexivity | simpl; now rewrite app_nil_r ].
Qed.

Lemma response_outcome_failure (r : http_result) :
  (forall status text parsed, r <> Response true status text parsed) ->
  exists e,
    response_outcome r = Raise e
    /\ (e = AttributeError \/ exists m s d, e = APIError m s d).
Proof.
  intros Hr. destruct r as [reason | ok status text parsed]; simpl.
  - eauto 7.
  - destruct ok; [now destruct (Hr status text parsed) |]. simpl.
    destruct (response_data text parsed); simpl; eauto 7.
Qed.

(** The run of [push], with the answer of the server made explicit. *)
Lemma push_run client content env_dict stage w :
  exists pushing,
    push post client content env_dict stage w
    = let w2 := World (echoed w ++ [pushing])
                      (sent w ++ [upsert_request client content env_dict stage])
                      (answers w) in
      try_except
        (bind (lift (response_outcome
                       (post (sent w)
                             (upsert_request client content env_dict stage))))
              read_push_result)
        except_APIError w2.
Proof.
  unfold push.
  destruct (truthy (of_optional stage)); eexists; reflexivity.
Qed.

Lemma push_fails client content env_dict stage w :
  (forall status text parsed,
     post (sent w) (upsert_request client content env_dict stage)
     <> Response true status text parsed) ->
  exists e,
    fst (push post client content env_dict stage w) = Raise e
    /\ exit_code (@Raise unit e) = 1.
Proof.
  intros Hr. destruct (push_run client content env_dict stage w) as (pushing & ->).
  destruct (response_outcome_failure _ Hr) as (e & He & Hkind).
  cbv zeta. unfold try_except, bind, lift. rewrite He.
  destruct Hkind as [-> | (m & s & d & ->)].
  - exists AttributeError. split; reflexivity.
  - exists (SystemExit 1). cbn [except_APIError].
    split; [apply handle_api_error_exits | reflexivity].
Qed.

Lemma read_push_result_returns data info wid w :
  py_get data "workflow" (PDict []) = Return info ->
  py_get info "id" PNone = Return wid ->
  truthy wid = true ->
  exists name stage w',
    py_get info "name" PNone = Return name
    /\ py_get info "stage" PNone = Return stage
    /\ read_push_result data w = (Return (wid, name, stage), w')
    /\ sent w' = sent w.
Proof.
  intros Hinfo Hid Hwid.
  assert (exists created, py_get data "created" PNone = Return created)
    as (created & Hcreated)
    by (destruct data; try discriminate; eexists; reflexivity).
  assert (exists name, py_get info "name" PNone = Return name) as (name & Hname)
    by (destruct info; try discriminate; eexists; reflexivity).
  assert (exists stage, py_get info "stage" PNone = Return stage)
    as (stage & Hstage)
    by (destruct info; try discriminate; eexists; reflexivity).
  assert (exists w1,
            (if truthy created then
               click_echo (styled false "green" [Lit "✓ Workflow created"])
             else click_echo (styled false "green" [Lit "✓ Workflow updated"])) w
            = (Return tt, w1) /\ sent w1 = sent w) as (w1 & Hecho & Hsent).
  { destruct (truthy created); eexists; split; reflexivity. }
  exists name, stage, w1. split; [exact Hname |]. split; [exact Hstage |].
  split; [| exact Hsent].
  unfold read_push_result, bind, lift.
  rewrite Hcreated, Hecho, Hinfo, Hid, Hname, Hstage, Hwid. reflexivity.
Qed.

Lemma push_succeeds client content env_dict stage w status text parsed info wid :
  post (sent w) (upsert_request client content env_dict stage)
  = Response true status text parsed ->
  py_get (response_data text parsed) "workflow" (PDict []) = Return info ->
  py_get info "id" PNone = Return wid ->
  truthy wid = true ->
  exists name stage' w',
    py_get info "name" PNone = Return name
    /\ py_get info "stage" PNone = Return stage'
    /\ push post client content env_dict stage w = (Return (wid, name, stage'), w')
    /\ sent w' = sent w ++ [upsert_request client content env_dict stage].
Proof.
  intros Hpost Hinfo Hid Hwid.
  destruct (push_run client content env_dict stage w) as (pushing & ->).
  cbv zeta. rewrite Hpost. cbn [response_outcome negb].
  unfold try_except, bind at 1, lift.
  match goal with
  | |- context [read_push_result ?data ?w2] =>
      destruct (read_push_result_returns data info wid w2 Hinfo Hid Hwid)
        as (name & stage' & w' & Hname & Hstage & -> & Hsent)
  end.
  exists name, stage', w'. repeat split; assumption.
Qed.

Lemma read_push_result_inv data w wid name stage w' :
  read_push_result data w = (Return (wid, name, stage), w') ->
  exists info,
    py_get data "workflow" (PDict []) = Return info
    /\ py_get info "id" PNone = Return wid
    /\ truthy wid = true.
Proof.
  unfold read_push_result, bind, lift.
  destruct (py_get data "created" PNone) as [created |]; [| discriminate].
  assert (exists w1,
            (if truthy created then
               click_echo (styled false "green" [Lit "✓ Workflow created"])
             else click_echo (styled false "green" [Lit "✓ Workflow updated"])) w
            = (Return tt, w1)) as (w1 & ->)
    by (destruct (truthy created); eexists; reflexivity).
  destruct (py_get data "workflow" (PDict [])) as [info |] eqn:Hinfo;
    [| discriminate].
  destruct (py_get info "id" PNone) as [wid0 |] eqn:Hid; [| discriminate].
  destruct (py_get info "name" PNone) as [name0 |]; [| discriminate].
  destruct (py_get info "stage" PNone) as [stage0 |]; [| discriminate].
  destruct (truthy wid0) eqn:Hwid; cbn [negb]; [| discriminate].
  unfold ret. intros [= <- <- <- <-]. exists info. auto.
Qed.

Lemma push_returns client content env_dict stage w wid name stage' w' :
  push post client content env_dict stage w = (Return (wid, name, stage'), w') ->
  exists status text parsed info,
    post (sent w) (upsert_request client content env_dict stage)
    = Response true status text parsed
    /\ py_get (response_data text parsed) "workflow" (PDict []) = Return info
    /\ py_get info "id" PNone = Return wid
    /\ truthy wid = true.
Proof.
  destruct (push_run client content env_dict stage w) as (pushing & ->).
  cbv zeta. unfold try_except, bind at 1, lift.
  destruct (post (sent w) (upsert_request client content env_dict stage))
    as [reason | ok status text parsed]; cbn [response_outcome].
  - cbn [except_APIError]. intros H.
    pose proof (handle_api_error_exits (A := pyval * pyval * pyval)
                  (PStr ("Request failed: " ++ reason)) None PNone) as Hexit.
    match type of H with ?run = _ => assert (fst run = Return (wid, name, stage'))
      as Hfst by now rewrite H end.
    rewrite Hexit in Hfst. discriminate.
  - destruct ok; cbn [negb].
    + destruct (read_push_result (response_data text parsed) _)
        as [[ids | e] w3] eqn:Hread.
      * intros [= -> <-]. apply read_push_result_inv in Hread.
        destruct Hread as (info & ? & ? & ?). eauto 10.
      * destruct (except_APIError e) as [h |] eqn:Hh; [| discriminate].
        destruct e; try discriminate. unfold except_APIError in Hh.
        injection Hh as <-. intros H.
        match type of H with ?run = _ =>
          assert (fst run = Return (wid, name, stage')) as Hfst by now rewrite H
        end.
        rewrite handle_api_error_exits in Hfst. discriminate.
    + destruct (response_data text parsed) as [| | | | | d];
        cbn [py_get except_APIError]; try discriminate.
      intros H.
      match type of H with ?run = _ =>
        assert (fst run = Return (wid, name, stage')) as Hfst by now rewrite H
      end.
      rewrite handle_api_error_exits in Hfst. discriminate.
Qed.

Lemma deploy_from_file key yaml_file workflow_id name stage env w client path
    content env_dict w1 :
  file_based yaml_file workflow_id name = true ->
  WorkflowsClient_init API_BASE_URL environ key None = Return client ->
  deploy_file path_exists yaml_file = Some path ->
  read_text path = inr content ->
  gather_environment_variables environ yaml_safe_load content env w
  = (Return env_dict, w1) ->
  deploy API_BASE_URL environ post yaml_safe_load path_exists read_text
         key yaml_file workflow_id name stage env w
  = bind (push post client content env_dict stage)
         (fun ids =>
            start_deployment post client (fst (fst ids)) (snd (fst ids)) (snd ids))
         w1.
Proof.
  intros Hmode Hclient Hfile Hread Hgather. unfold deploy.
  unfold bind at 1. rewrite (get_client_ok _ _ _ Hclient).
  unfold file_based in Hmode. rewrite Hmode.
  unfold bind at 1 2.
  now rewrite (prepare_ok _ _ _ _ _ _ _ Hfile Hread Hgather).
Qed.

Lemma start_deployment_by_id client wid name stage w :
  truthy wid = true ->
  sent (snd (start_deployment post client wid name stage w))
  = sent w ++ [deploy_request client wid].
Proof.
  intros Hwid. rewrite start_deployment_sent.
  unfold identifier_policy. now rewrite Hwid.
Qed.

(** A file-based [deploy] whose preparation fails stops there: nothing is
    sent. *)
Lemma deploy_stops_before_network key yaml_file workflow_id name stage env w
    client e w' :
  file_based yaml_file workflow_id name = true ->
  WorkflowsClient_init API_BASE_URL environ key None = Return client ->
  prepare environ yaml_safe_load path_exists read_text yaml_file env w
  = (Raise e, w') ->
  deploy API_BASE_URL environ post yaml_safe_load path_exists read_text
         key yaml_file workflow_id name stage env w = (Raise e, w')
  /\ sent w' = sent w.
Proof.
  intros Hmode Hclient Hprepare. split.
  - unfold deploy. unfold bind at 1. rewrite (get_client_ok _ _ _ Hclient).
    unfold file_based in Hmode. rewrite Hmode.
    unfold bind at 1 2. now rewrite Hprepare.
  - pose proof (quiet_prepare yaml_file env w) as [Hs _].
    now rewrite Hprepare in Hs.
Qed.

(** C5, as the code has it. A file-based [deploy] that gets as far as the
    network (the client is built, the file is read, the environment is
    reconciled) sends the upsert request first and once. Whatever the server
    answers, the requests sent are that upsert alone, or that upsert followed
    by one deploy request which carries the workflow id read from the
    upsert's answer. When the upsert fails (no answer, or a status that is
    not a success) nothing follows it and the exit status is 1; when its
    answer holds a workflow id, the deployment step runs on the id, name and
    stage of that answer and sends the deploy request. *)
Theorem deploy_file_upsert_then_deploy key yaml_file workflow_id name stage env
    w client path content env_dict w1 :
  file_based yaml_file workflow_id name = true ->
  WorkflowsClient_init API_BASE_URL environ key None = Return client ->
  deploy_file path_exists yaml_file = Some path ->
  read_text path = inr content ->
  gather_environment_variables environ yaml_safe_load content env w
  = (Return env_dict, w1) ->
  let up := upsert_request client content env_dict stage in
  let run := deploy API_BASE_URL environ post yaml_safe_load path_exists
                    read_text key yaml_file workflow_id name stage env w in
  (sent (snd run) = sent w ++ [up]
   \/ exists status text parsed info wid,
        post (sent w) up = Response true status text parsed
        /\ py_get (response_data text parsed) "workflow" (PDict []) = Return info
        /\ py_get info "id" PNone = Return wid
        /\ truthy wid = true
        /\ sent (snd run) = sent w ++ [up; deploy_request client wid])
  /\ ((forall status text parsed,
         post (sent w) up <> Response true status text parsed) ->
      sent (snd run) = sent w ++ [up] /\ exit_code (fst run) = 1)
  /\ (forall status text parsed info wid,
        post (sent w) up = Response true status text parsed ->
        py_get (response_data text parsed) "workflow" (PDict []) = Return info ->
        py_get info "id" PNone = Return wid ->
        truthy wid = true ->
        (exists deploy_name deploy_stage pushed,
           py_get info "name" PNone = Return deploy_name
           /\ py_get info "stage" PNone = Return deploy_stage
           /\ sent pushed = sent w ++ [up]
           /\ run = start_deployment post client wid deploy_name deploy_stage
                                     pushed)
        /\ sent (snd run) = sent w ++ [up; deploy_request client wid]).
Proof.
  intros Hmode Hclient Hfile Hread Hgather up run.
  assert (sent w1 = sent w) as Hw1.
  { pose proof (gather_sent environ yaml_safe_load content env w) as [Hs _].
    now rewrite Hgather in Hs. }
  unfold run. rewrite (deploy_from_file _ _ _ _ _ _ _ _ _ _ _ _
                         Hmode Hclient Hfile Hread Hgather).
  pose proof (push_sent client content env_dict stage w1) as Hsent.
  fold up in Hsent. rewrite Hw1 in Hsent.
  unfold bind.
  destruct (push post client content env_dict stage w1)
    as [[[[wid deploy_name] deploy_stage] | e] w3] eqn:Hpush;
    cbn [fst snd] in *.
  - destruct (push_returns _ _ _ _ _ _ _ _ _ Hpush)
      as (status & text & parsed & info & Hpost & Hinfo & Hid & Hwid).
    fold up in Hpost. rewrite Hw1 in Hpost.
    assert (sent (snd (start_deployment post client wid deploy_name
                                        deploy_stage w3))
            = sent w ++ [up; deploy_request client wid]) as Hboth.
    { rewrite (start_deployment_by_id _ _ _ _ _ Hwid), Hsent.
      now rewrite <- app_assoc. }
    split; [right; eauto 10 |]. split.
    + intros Hfail. now destruct (Hfail status text parsed).
    + intros status' text' parsed' info' wid' Hpost' Hinfo' Hid' Hwid'.
      rewrite Hpost in Hpost'. injection Hpost' as <- <- <-.
      rewrite Hinfo in Hinfo'. injection Hinfo' as <-.
      rewrite Hid in Hid'. injection Hid' as <-.
      split; [| exact Hboth].
      rewrite <- Hw1 in Hpost.
      destruct (push_succeeds client content env_dict stage w1 _ _ _ _ _
                  Hpost Hinfo Hid Hwid)
        as (n & s & w4 & Hname & Hstage & Hret & _).
      rewrite Hpush in Hret. injection Hret as <- <- <-.
      exists deploy_name, deploy_stage, w3. auto.
  - split; [left; exact Hsent |]. split.
    + intros Hfail. split; [exact Hsent |].
      rewrite <- Hw1 in Hfail.
      destruct (push_fails client content env_dict stage w1 Hfail)
        as (e' & He' & Hcode).
      rewrite Hpush in He'. cbn [fst] in He'. injection He' as ->.
      destruct e'; try reflexivity; exact Hcode.
    + intros status text parsed info wid Hpost Hinfo Hid Hwid.
      rewrite <- Hw1 in Hpost.
      destruct (push_succeeds client content env_dict stage w1 _ _ _ _ _
                  Hpost Hinfo Hid Hwid) as (n & s & w4 & _ & _ & Hret & _).
      rewrite Hpush in Hret. discriminate.
Qed.

Lemma upsert_payload_stage yaml env stage :
  dict_get "stage" (upsert_payload yaml env stage)
  = if truthy stage then Some stage else None.
Proof.
  unfold upsert_payload. destruct (truthy env), (truthy stage); reflexivity.
Qed.

(** The three cases of the stage a [deploy] invocation hands to the upsert,
    and the case the precedence does not speak of: an empty [--stage] on the
    command line is no override, and keeps [ETLR_STAGE] out as well. *)
Lemma click_option_stage yaml env stage_flag :
  let payload :=
    upsert_payload yaml env
      (of_optional (click_option environ stage_flag "ETLR_STAGE")) in
  (forall flag, stage_flag = Some flag -> flag <> "" ->
     dict_get "stage" payload = Some (PStr flag))
  /\ (stage_flag = None ->
      forall value, environ !! "ETLR_STAGE" = Some value -> value <> "" ->
        dict_get "stage" payload = Some (PStr value))
  /\ (stage_flag = None -> environ !! "ETLR_STAGE" = None ->
      dict_get "stage" payload = None)
  /\ (stage_flag = Some "" \/
      (stage_flag = None /\ environ !! "ETLR_STAGE" = Some "") ->
      dict_get "stage" payload = None).
Proof.
  intros payload. unfold payload. rewrite upsert_payload_stage.
  unfold click_option, os_getenv. repeat split.
  - intros flag -> Hne. cbn [of_optional truthy].
    apply String.eqb_neq in Hne. now rewrite Hne.
  - intros -> value -> Hne. cbn [truthy]. apply String.eqb_neq in Hne.
    rewrite Hne. cbn [negb of_optional truthy]. now rewrite Hne.
  - intros -> ->. reflexivity.
  - intros [-> | [-> ->]]; reflexivity.
Qed.

(** Every request of a [deploy] run is the upsert of its stage or a deploy
    request. *)
Lemma deploy_requests key yaml_file workflow_id name stage env w :
  exists requests,
    sent (snd (deploy API_BASE_URL environ post yaml_safe_load path_exists
                      read_text key yaml_file workflow_id name stage env w))
    = sent w ++ requests
    /\ Forall (fun req =>
                 payload_field "action" req = Some (PStr "deploy")
                 \/ exists yaml env_argument,
                      json req
                      = PDict (upsert_payload yaml env_argument
                                              (of_optional stage)))
              requests.
Proof.
  assert (forall client a b c w0,
            exists requests,
              sent (snd (start_deployment post client a b c w0))
              = sent w0 ++ requests
              /\ Forall (fun req =>
                           payload_field "action" req = Some (PStr "deploy")
                           \/ exists yaml env_argument,
                                json req
                                = PDict (upsert_payload yaml env_argument
                                                        (of_optional stage)))
                        requests) as Hstart.
  { intros client a b c w0. rewrite start_deployment_sent.
    unfold identifier_policy.
    destruct (truthy a); [| destruct (truthy b), (truthy c)];
      cbn [identified_payload]; eexists; (split; [reflexivity |]);
      repeat constructor. }
  unfold deploy, bind at 1.
  pose proof (quiet_get_client key w) as [Hclient _].
  destruct (get_client API_BASE_URL environ key w) as [[client | e] w0];
    cbn [snd] in Hclient; [| exists []; rewrite app_nil_r; auto].
  rewrite <- Hclient. fold (file_based yaml_file workflow_id name).
  destruct (file_based yaml_file workflow_id name).
  - unfold bind at 1 2.
    pose proof (quiet_prepare yaml_file env w0) as [Hprepare _].
    destruct (prepare environ yaml_safe_load path_exists read_text yaml_file
                      env w0) as [[[content env_dict] | e] w1];
      cbn [fst snd] in *; [| exists []; rewrite app_nil_r; auto].
    pose proof (push_sent client content env_dict stage w1) as Hpush.
    rewrite Hprepare in Hpush.
    destruct (push post client content env_dict stage w1)
      as [[[[wid deploy_name] deploy_stage] | e] w3]; cbn [fst snd] in *.
    + destruct (Hstart client wid deploy_name deploy_stage w3)
        as (requests & -> & Hall).
      exists (upsert_request client content env_dict stage :: requests).
      rewrite Hpush, <- app_assoc. split; [reflexivity |].
      constructor; [right; unfold upsert_request; simpl; eauto | exact Hall].
    + exists [upsert_request client content env_dict stage].
      split; [exact Hpush |].
      constructor; [right; unfold upsert_request; simpl; eauto | constructor].
  - unfold bind, ret. cbn [fst snd]. apply Hstart.
Qed.

Lemma upsert_payload_action yaml env stage :
  dict_get "action" (upsert_payload yaml env stage) = Some (PStr "upsert").
Proof.
  unfold upsert_payload. destruct (truthy env), (truthy stage); reflexivity.
Qed.

(** The precedence of the stage, for values that are not empty: every upsert
    request a [deploy] invocation sends carries the [--stage] flag if one is
    given and not empty, else [ETLR_STAGE] if it is set and not empty and no
    flag is given, else no [stage] field at all when neither is there, which
    leaves the stage declared in the YAML in force.  A file-based invocation
    that gets as far as the network does send that upsert, as its first
    request.  The empty flag [--stage ''] is left out here. *)
Theorem stage_precedence api_key_flag yaml_file id_flag name_flag stage_flag
    env w (yaml_stage : pyval) :
  let run := cli_deploy API_BASE_URL environ post yaml_safe_load path_exists
                        read_text api_key_flag yaml_file id_flag name_flag
                        stage_flag env w in
  exists requests,
    sent (snd run) = sent w ++ requests
    /\ (forall req,
          req ∈ requests ->
          payload_field "action" req = Some (PStr "upsert") ->
          (forall flag, stage_flag = Some flag -> flag <> "" ->
             payload_field "stage" req = Some (PStr flag)
             /\ effective_stage yaml_stage req = PStr flag)
          /\ (stage_flag = None ->
              forall value,
                environ !! "ETLR_STAGE" = Some value -> value <> "" ->
                payload_field "stage" req = Some (PStr value)
                /\ effective_stage yaml_stage req = PStr value)
          /\ (stage_flag = None -> environ !! "ETLR_STAGE" = None ->
              payload_field "stage" req = None
              /\ effective_stage yaml_stage req = yaml_stage))
    /\ (forall client path content env_dict w1,
          file_based yaml_file id_flag name_flag = true ->
          WorkflowsClient_init API_BASE_URL environ
            (click_option environ api_key_flag "ETLR_API_KEY") None
          = Return client ->
          deploy_file path_exists yaml_file = Some path ->
          read_text path = inr content ->
          gather_environment_variables environ yaml_safe_load content env w
          = (Return env_dict, w1) ->
          exists later,
            requests
            = upsert_request client content env_dict
                (click_option environ stage_flag "ETLR_STAGE") :: later).
Proof.
  intros run. unfold run, cli_deploy.
  set (stage := click_option environ stage_flag "ETLR_STAGE").
  set (key := click_option environ api_key_flag "ETLR_API_KEY").
  destruct (deploy_requests key yaml_file id_flag name_flag stage env w)
    as (requests & Hsent & Hall).
  exists requests. split; [exact Hsent |]. split.
  - intros req Hin Haction.
    rewrite Forall_forall in Hall. destruct (Hall req Hin) as [Hd | Hu].
    { rewrite Hd in Haction. discriminate. }
    destruct Hu as (yaml & env_argument & Hjson).
    destruct (click_option_stage yaml env_argument stage_flag)
      as (Hflag & Henv & Hnone & _).
    fold stage in Hflag, Henv, Hnone.
    unfold effective_stage, payload_field. rewrite Hjson.
    split; [| split].
    + intros flag Hgiven Hne. rewrite (Hflag flag Hgiven Hne). auto.
    + intros Habsent value Hset Hne. rewrite (Henv Habsent value Hset Hne). auto.
    + intros Habsent Hunset. rewrite (Hnone Habsent Hunset). auto.
  - intros client path content env_dict w1 Hmode Hclient Hfile Hread Hgather.
    assert (sent w1 = sent w) as Hw1.
    { pose proof (gather_sent environ yaml_safe_load content env w) as [Hs _].
      now rewrite Hgather in Hs. }
    rewrite (deploy_from_file _ _ _ _ _ _ _ _ _ _ _ _
               Hmode Hclient Hfile Hread Hgather) in Hsent.
    pose proof (push_sent client content env_dict stage w1) as Hpush.
    rewrite Hw1 in Hpush. unfold bind in Hsent.
    destruct (push post client content env_dict stage w1)
      as [[[[wid deploy_name] deploy_stage] | e] w3]; cbn [fst snd] in *.
    + rewrite start_deployment_sent, Hpush, <- app_assoc in Hsent.
      apply app_inv_head in Hsent. eauto.
    + rewrite Hpush in Hsent. apply app_inv_head in Hsent. eauto.
Qed.

End Commands.

(** The example of the specification: YAML stage [dev], [ETLR_STAGE=staging],
    flag [prod]. *)
Example stage_precedence_example :
  effective_stage (PStr "dev")
    (upsert_request sample_client "" []
       (click_option staging (Some "prod") "ETLR_STAGE"))
  = PStr "prod"
  /\ effective_stage (PStr "dev")
       (upsert_request sample_client "" []
          (click_option staging None "ETLR_STAGE"))
     = PStr "staging"
  /\ effective_stage (PStr "dev")
       (upsert_request sample_client "" [] (click_option ∅ None "ETLR_STAGE"))
     = PStr "dev".
Proof. repeat split; vm_compute; reflexivity. Qed.

(** ** The commands on a sample server *)

Lemma deploy_file_upsert_then_deploy_witness :
  sent (snd (deploy "https://api" ∅ sample_server (loads plain_doc)
               (fun _ => true) sample_files (Some "test-key")
               (Some "workflow.yaml") None None None [] (initial [])))
  = sent (initial [])
    ++ [upsert_request sample_client "workflow: {}" [] None;
        deploy_request sample_client (PStr "123")].
Proof.
  refine (proj2 (proj2 (proj2
            (deploy_file_upsert_then_deploy "https://api" ∅ sample_server
               (loads plain_doc) (fun _ => true) sample_files (Some "test-key")
               (Some "workflow.yaml") None None None [] (initial [])
               sample_client "workflow.yaml" "workflow: {}" [] (initial [])
               _ _ _ _ _))
            200 "" _ _ (PStr "123") _ _ _ _)); reflexivity.
Defined.

(** The run of the example with the flag: one upsert whose stage is [prod],
    then the deploy request. *)
Example stage_precedence_run :
  map (fun req => (payload_field "action" req, payload_field "stage" req))
      (sent (snd (cli_deploy "https://api" staging sample_server
                    (loads plain_doc) (fun _ => true) sample_files
                    (Some "test-key") (Some "workflow.yaml") None None
                    (Some "prod") [] (initial []))))
  = [(Some (PStr "upsert"), Some (PStr "prod"));
     (Some (PStr "deploy"), None)].
Proof. vm_compute. reflexivity. Qed.

Lemma stage_precedence_witness :
  payload_field "stage"
    (upsert_request sample_client "workflow: {}" [] (Some "prod"))
  = Some (PStr "prod")
  /\ effective_stage (PStr "dev")
       (upsert_request sample_client "workflow: {}" [] (Some "prod"))
     = PStr "prod".
Proof.
  destruct (stage_precedence "https://api" staging sample_server
              (loads plain_doc) (fun _ => true) sample_files (Some "test-key")
              (Some "workflow.yaml") None None (Some "prod") [] (initial [])
              (PStr "dev")) as (requests & Hsent & Hall & _).
  vm_compute in Hsent. subst requests.
  refine (proj1 (Hall (upsert_request sample_client "workflow: {}" []
                                      (Some "prod")) _ _) "prod" _ _).
  - apply list_elem_of_here.
  - reflexivity.
  - reflexivity.
  - discriminate.
Defined.


Lemma confirmation_decides_witness :
  (fst (delete "https://api" ∅ sample_server (Some "test-key") (Some "123")
          None None false (initial [false])) = Return tt
   /\ exit_code (fst (delete "https://api" ∅ sample_server (Some "test-key")
                        (Some "123") None None false (initial [false]))) = 0
   /\ sent (snd (delete "https://api" ∅ sample_server (Some "test-key")
                   (Some "123") None None false (initial [false])))
      = sent (initial [false]))
  /\ (fst (restore "https://api" ∅ sample_server (Some "test-key") "123" 2
             false (initial [false])) = Return tt
      /\ exit_code (fst (restore "https://api" ∅ sample_server (Some "test-key")
                           "123" 2 false (initial [false]))) = 0
      /\ sent (snd (restore "https://api" ∅ sample_server (Some "test-key")
                      "123" 2 false (initial [false])))
         = sent (initial [false])).
Proof.
  apply (confirmation_decides "https://api" ∅ sample_server (Some "test-key")
           (Some "123") None None "123" 2 false [] (initial [false])).
  reflexivity.
Defined.

(** The same two commands when the answer is yes: one request each. *)
Example confirmed_commands_send_once :
  sent (snd (delete "https://api" ∅ sample_server (Some "test-key") None
               (Some "test") (Some "prod") false (initial [true])))
  = [client_request sample_client
       (PDict [("action", PStr "delete"); ("name", PStr "test");
               ("stage", PStr "prod")])]
  /\ sent (snd (restore "https://api" ∅ sample_server (Some "test-key") "123" 2
                  false (initial [true])))
     = [client_request sample_client
          (PDict [("action", PStr "restore_version");
                  ("workflow_id", PStr "123"); ("version", PInt 2)])].
Proof. split; vm_compute; reflexivity. Qed.

(** ** Scenarios of the repository's tests *)

(** [test_get_workflow_by_id] with a name and a stage added: the id alone is
    sent. *)
Example uuid_takes_precedence :
  sent (snd (get_workflow sample_server sample_client (PStr "123")
               (PStr "test-workflow") (PStr "prod") (initial [])))
  = [client_request sample_client
       (PDict [("action", PStr "get"); ("workflow_id", PStr "123")])].
Proof. reflexivity. Qed.

(** [test_deploy_cli_env_overrides_yaml]. *)
Example test_deploy_cli_env_overrides_yaml :
  map (payload_field "env")
      (sent (snd (deploy "https://api" {["API_KEY" := "env-key"]} sample_server
                    (loads (workflow_doc [secret_declaration "API_KEY"]))
                    (fun _ => true) sample_files (Some "test-key")
                    (Some "workflow.yaml") None None None
                    ["API_KEY=cli-override"] (initial []))))
  = [Some (PList [PDict [("name", PStr "API_KEY");
                         ("value", PStr "cli-override");
                         ("secret", PBool true)]]);
     None].
Proof. vm_compute. reflexivity. Qed.

(** [test_deploy_with_missing_environment_vars]. *)
Example test_deploy_with_missing_environment_vars :
  exit_code (fst (deploy "https://api" only_api_key sample_server
                    (loads two_secrets) (fun _ => true) sample_files
                    (Some "test-key") (Some "workflow.yaml") None None None []
                    (initial []))) = 1
  /\ displayed "Missing required environment variables: DATABASE_URL"
       (snd (deploy "https://api" only_api_key sample_server
               (loads two_secrets) (fun _ => true) sample_files
               (Some "test-key") (Some "workflow.yaml") None None None []
               (initial []))) = true.
Proof. split; vm_compute; reflexivity. Qed.

(** [test_deploy_without_environment_section]: the override is sent, and
    nothing about it is printed before the push. *)
Example test_deploy_without_environment_section :
  map (payload_field "env")
      (sent (snd (deploy "https://api" ∅ sample_server (loads plain_doc)
                    (fun _ => true) sample_files (Some "test-key")
                    (Some "workflow.yaml") None None None ["API_KEY=test"]
                    (initial []))))
  = [Some (PList [PDict [("name", PStr "API_KEY"); ("value", PStr "test");
                         ("secret", PBool false)]]);
     None]
  /\ displayed "API_KEY"
       (snd (deploy "https://api" ∅ sample_server (loads plain_doc)
               (fun _ => true) sample_files (Some "test-key")
               (Some "workflow.yaml") None None None ["API_KEY=test"]
               (initial []))) = false.
Proof. split; vm_compute; reflexivity. Qed.

(** C5, as the specification words it, fails on file-based runs that stop
    at one of the checks of [deploy]: with a declared variable missing from
    the environment, without API key, or with a file that cannot be read,
    nothing is sent at all; and when the server answers the upsert without a
    workflow id, the upsert has not failed and yet no deploy request
    follows. *)
Lemma deploy_as_specified_fails :
  ~ deploy_as_specified sample_server (initial [])
      (deploy "https://api" only_api_key sample_server (loads two_secrets)
              (fun _ => true) sample_files (Some "test-key")
              (Some "workflow.yaml") None None None [] (initial []))
  /\ ~ deploy_as_specified sample_server (initial [])
        (deploy "https://api" ∅ sample_server (loads plain_doc)
                (fun _ => true) sample_files None
                (Some "workflow.yaml") None None None [] (initial []))
  /\ ~ deploy_as_specified sample_server (initial [])
        (deploy "https://api" ∅ sample_server (loads plain_doc)
                (fun _ => true) (fun _ => inl "Permission denied")
                (Some "test-key") (Some "workflow.yaml") None None None []
                (initial []))
  /\ ~ deploy_as_specified forgetful_server (initial [])
        (deploy "https://api" ∅ forgetful_server (loads plain_doc)
                (fun _ => true) sample_files (Some "test-key")
                (Some "workflow.yaml") None None None [] (initial [])).
Proof.
  assert (forall post run,
            sent (snd run) = [] -> ~ deploy_as_specified post (initial []) run)
    as Hnothing.
  { intros post run Hrun (up & _ & Hsent). rewrite Hrun in Hsent.
    destruct (upsert_failed _); [| destruct Hsent as (dep & _ & Hsent)];
      discriminate. }
  repeat split; try (apply Hnothing; vm_compute; reflexivity).
  intros (up & _ & Hsent).
  assert (sent (snd (deploy "https://api" ∅ forgetful_server
                       (loads plain_doc) (fun _ => true) sample_files
                       (Some "test-key") (Some "workflow.yaml") None None
                       None [] (initial [])))
          = [upsert_request sample_client "workflow: {}" [] None]) as Hrun
    by (vm_compute; reflexivity).
  rewrite Hrun in Hsent. cbn [forgetful_server upsert_failed] in Hsent.
  destruct Hsent as (dep & _ & Hsent). discriminate.
Qed.

(** C7, as the specification words it, fails after an affirmative answer
    when the command has nothing to send: a [delete] without identifier, and
    a [restore] without API key, end with status 1 and no request. *)
Lemma confirmation_as_specified_fails :
  ~ confirmation_as_specified true (initial [true])
      (delete "https://api" ∅ sample_server (Some "test-key") None None None
              false (initial [true]))
  /\ ~ confirmation_as_specified true (initial [true])
        (restore "https://api" ∅ sample_server None "123" 2 false
                 (initial [true])).
Proof.
  split; intros (req & Hsent); vm_compute in Hsent; discriminate.
Qed.

(** * Further properties of environment reconciliation *)

Lemma str_split1_contains (c : ascii) (s : string) :
  str_contains c s = true ->
  exists k v,
    str_split1 c s = [k; v]
    /\ s = (k ++ String c v)%string
    /\ str_contains c k = false.
Proof.
  induction s as [| a s IH]; simpl; [discriminate |].
  destruct (Ascii.eqb a c) eqn:E.
  - intros _. apply Ascii.eqb_eq in E. subst a. exists ""%string, s. auto.
  - intros H. destruct (IH H) as (k & v & Hsplit & -> & Hk).
    exists (String a k), v. rewrite Hsplit. simpl. rewrite E. auto.
Qed.

Lemma add_key_keys {V : Type} (d : list (string * V)) k v :
  dict_keys (dict_set k v d) = add_key (dict_keys d) k.
Proof. apply dict_keys_set. Qed.

Lemma apply_overrides_keys overrides d d' :
  apply_overrides overrides d = Return d' ->
  dict_keys d' = fold_left add_key (map override_key overrides) (dict_keys d).
Proof.
  revert d. induction overrides as [| item rest IH]; intros d H.
  - simpl in H. injection H as <-. reflexivity.
  - apply apply_overrides_cons in H. destruct H as (key & value & Hsplit & H).
    rewrite (IH _ H). simpl. rewrite add_key_keys.
    unfold override_key. now rewrite Hsplit.
Qed.

Lemma apply_overrides_well_formed overrides d :
  forallb (str_contains "=") overrides = true ->
  exists d', apply_overrides overrides d = Return d'.
Proof.
  revert d. induction overrides as [| item rest IH]; intros d H; simpl in *.
  - eauto.
  - apply andb_true_iff in H. destruct H as [Hitem Hrest].
    rewrite Hitem. cbn [negb].
    destruct (str_split1_contains _ _ Hitem) as (k & v & -> & _).
    apply IH, Hrest.
Qed.

Lemma apply_overrides_malformed pre bad post d :
  forallb (str_contains "=") pre = true ->
  str_contains "=" bad = false ->
  apply_overrides (pre ++ bad :: post) d
  = Raise (ClickException ("Invalid env format: " ++ bad ++ ". Use KEY=VALUE")).
Proof.
  intros Hpre Hbad. rewrite apply_overrides_app.
  destruct (apply_overrides_well_formed pre d Hpre) as (d' & ->).
  simpl. now rewrite Hbad.
Qed.

Section FurtherReconciliation.

Variable environ : gmap string string.
Variable yaml_safe_load : string -> string + pyval.

Lemma names_where_cons keep env_def defs :
  names_where keep environ (env_def :: defs)
  = match entry_name env_def with
    | PStr n => if truthy (PStr n) && keep (environ !! n) then [n] else []
    | _ => []
    end ++ names_where keep environ defs.
Proof. reflexivity. Qed.

(** The two lists the declaration loop builds. *)
Lemma declare_all_lists defs acc acc' :
  declare_all environ acc defs = Return acc' ->
  dict_keys (env_vars acc')
  = fold_left add_key (defined_names environ defs) (dict_keys (env_vars acc))
  /\ missing acc' = missing acc ++ undefined_names environ defs.
Proof.
  revert acc. induction defs as [| env_def rest IH]; intros acc H; simpl in H.
  - injection H as <-. simpl. now rewrite app_nil_r.
  - destruct (declare environ acc env_def) as [acc1 |] eqn:Hd; [| discriminate].
    destruct (IH _ H) as [-> ->]. unfold defined_names, undefined_names.
    rewrite !names_where_cons. apply declare_cases in Hd.
    destruct Hd as [[Hf ->] | (n & Hname & Hne & _ & Henv)].
    + destruct (entry_name env_def) as [| | | n | |]; try (split; reflexivity).
      rewrite Hf. split; reflexivity.
    + rewrite Hname. apply String.eqb_neq in Hne. cbn [truthy]. rewrite Hne.
      cbn [negb andb].
      destruct (environ !! n) as [value |]; destruct Henv as [-> ->].
      * rewrite add_key_keys. split; reflexivity.
      * cbn [app]. rewrite <- app_assoc. split; reflexivity.
Qed.

Lemma declare_all_walkable defs acc :
  forallb name_ok defs = true ->
  exists acc', declare_all environ acc defs = Return acc'.
Proof.
  revert acc. induction defs as [| env_def rest IH]; intros acc H; simpl in *.
  - eauto.
  - apply andb_true_iff in H. destruct H as [Hok Hrest].
    assert (exists acc1, declare environ acc env_def = Return acc1) as (acc1 & ->).
    { unfold declare, name_ok in *.
      destruct (entry_name env_def) as [| b | z | n | items | d];
        try (rewrite Hok; eauto).
      destruct (negb (truthy (PStr n))); [eauto |].
      destruct (os_getenv environ n); eauto. }
    apply IH, Hrest.
Qed.

End FurtherReconciliation.

Section ReconciliationResults.

Variable environ : gmap string string.
Variable yaml_safe_load : string -> string + pyval.

Lemma all_defined defs :
  undefined_names environ defs = [] ->
  defined_names environ defs = declared_names defs.
Proof.
  unfold undefined_names, defined_names, declared_names.
  induction defs as [| env_def rest IH]; [reflexivity |].
  rewrite !names_where_cons. cbn [flat_map].
  destruct (entry_name env_def) as [| | | n | |]; cbn [app]; try exact IH.
  destruct (truthy (PStr n)); cbn [andb app]; [| exact IH].
  destruct (environ !! n); cbn [app]; [| discriminate].
  intros H. now rewrite IH.
Qed.

Lemma declare_all_value defs acc acc' n v :
  declare_all environ acc defs = Return acc' ->
  n <> "" -> environ !! n = Some v ->
  dict_get n (env_vars acc) = Some v \/ PStr n ∈ map entry_name defs ->
  dict_get n (env_vars acc') = Some v.
Proof.
  intros H Hne Henv. revert acc H.
  induction defs as [| env_def rest IH]; intros acc H Hor; simpl in H.
  - injection H as <-. destruct Hor as [Hget | Hin]; [exact Hget | inversion Hin].
  - destruct (declare environ acc env_def) as [acc1 |] eqn:Hd; [| discriminate].
    apply (IH _ H). apply declare_cases in Hd.
    destruct Hd as [[Hf ->] | (m & Hname & _ & _ & Hcase)].
    + destruct Hor as [Hget | Hin]; [now left |].
      simpl in Hin. apply elem_of_cons in Hin. destruct Hin as [Heq | Hin]; [| now right].
      rewrite <- Heq in Hf. simpl in Hf. apply negb_false_iff in Hf.
      apply String.eqb_eq in Hf. contradiction.
    + destruct (decide (m = n)) as [-> | Hmn].
      * rewrite Henv in Hcase. destruct Hcase as [-> _]. left. apply dict_get_set_eq.
      * destruct Hor as [Hget | Hin].
        -- left. destruct (environ !! m); destruct Hcase as [-> _]; [| exact Hget].
           now rewrite dict_get_set_ne.
        -- simpl in Hin. apply elem_of_cons in Hin.
           destruct Hin as [Heq | Hin]; [congruence | now right].
Qed.

(** X1. The variables a successful reconciliation returns carry pairwise
    distinct names, in the order in which the code first assigns them: the
    usable declared names in declaration order, then the override keys that
    are not declared, each at its first occurrence. *)
Theorem gathered_names_in_order yaml_content env_declarations overrides w l w' :
  declares yaml_safe_load yaml_content env_declarations ->
  gather_environment_variables environ yaml_safe_load yaml_content overrides w
  = (Return l, w') ->
  map var_name l
  = insertion_order (declared_names (declared_items env_declarations)
                     ++ map override_key overrides)
  /\ NoDup (map var_name l).
Proof.
  intros Hdecl Hrun. rewrite (gather_declares _ _ _ _ _ _ Hdecl) in Hrun.
  apply reconcile_returns in Hrun. unfold insertion_order, declared_items.
  rewrite fold_left_app.
  destruct Hrun as [(-> & _ & d & Hd & ->)
                   | (-> & defs & acc & d & -> & Hacc & Hd & Hmiss & -> & _)];
    rewrite map_map; cbn [var_name];
    change (map (fun x : string * string => fst x) d) with (dict_keys d).
  - split.
    + exact (apply_overrides_keys _ _ _ Hd).
    + eapply apply_overrides_NoDup; [| exact Hd]. apply NoDup_nil_2.
  - split.
    + rewrite (apply_overrides_keys _ _ _ Hd).
      destruct (declare_all_lists environ _ _ _ Hacc) as [-> Hm].
      rewrite Hmiss in Hm. simpl in Hm. symmetry in Hm.
      now rewrite (all_defined _ Hm).
    + eapply apply_overrides_NoDup; [| exact Hd].
      eapply declare_all_NoDup; [| exact Hacc]. apply NoDup_nil_2.
Qed.

(** X2. After a successful reconciliation every usable declared name is
    defined in the process environment, and a declared variable that no
    override names is returned once, with the value of the environment and
    the secrecy of its declaration. *)
Theorem declared_variable_from_environment
    yaml_content env_declarations overrides w l w' n :
  declares yaml_safe_load yaml_content env_declarations ->
  gather_environment_variables environ yaml_safe_load yaml_content overrides w
  = (Return l, w') ->
  PStr n ∈ map entry_name (declared_items env_declarations) ->
  n <> "" ->
  exists v,
    environ !! n = Some v
    /\ (Forall (fun item => override_key item <> n) overrides ->
        EnvVar n v (declared_secret env_declarations n) ∈ l
        /\ forall e, e ∈ l -> var_name e = n ->
             e = EnvVar n v (declared_secret env_declarations n)).
Proof.
  intros Hdecl Hrun Hin Hne.
  pose proof (secret_flag_declared environ yaml_safe_load _ _ _ _ _ _ Hdecl Hrun)
    as Hsecret.
  rewrite (gather_declares _ _ _ _ _ _ Hdecl) in Hrun.
  apply reconcile_returns in Hrun. unfold declared_items in Hin.
  destruct Hrun as [(Hf & _) | (Ht & defs & acc & d & Hit & Hacc & Hd & Hmiss & -> & _)].
  - rewrite Hf in Hin. inversion Hin.
  - rewrite Ht, Hit in Hin.
    destruct (environ !! n) as [v |] eqn:Henv.
    + exists v. split; [reflexivity |]. intros Hov.
      assert (dict_get n d = Some v) as Hget.
      { rewrite (apply_overrides_other _ _ _ _ Hov Hd).
        eapply declare_all_value; eauto. }
      assert (NoDup (dict_keys d)) as Hnd.
      { eapply apply_overrides_NoDup; [| exact Hd].
        eapply declare_all_NoDup; [| exact Hacc]. apply NoDup_nil_2. }
      pose proof (objects_of_dict (fun k => bool_decide (k ∈ secret_vars acc))
                    d n v Hnd Hget) as [Hmem Huniq].
      cbv zeta in Hmem, Huniq.
      pose proof (Hsecret _ Hmem) as Hs. simpl in Hs. rewrite <- Hs.
      split; [exact Hmem | exact Huniq].
    + exfalso.
      assert (n ∈ missing acc) as Hm.
      { apply (declare_all_missing environ yaml_safe_load _ _ _ n Hacc). right. auto. }
      rewrite Hmiss in Hm. inversion Hm.
Qed.

(** X3. An override without ["="] is refused with the message naming it,
    whatever else is wrong: provided the declarations can be walked, the
    first such override decides the outcome, nothing is printed, and
    variables missing from the environment are not reported. *)
Theorem malformed_override_rejected
    yaml_content env_declarations pre bad post w :
  declares yaml_safe_load yaml_content env_declarations ->
  walkable env_declarations = true ->
  forallb (str_contains "=") pre = true ->
  str_contains "=" bad = false ->
  gather_environment_variables environ yaml_safe_load yaml_content
    (pre ++ bad :: post) w
  = (Raise (ClickException ("Invalid env format: " ++ bad ++ ". Use KEY=VALUE")),
     w).
Proof.
  intros Hdecl Hwalk Hpre Hbad. rewrite (gather_declares _ _ _ _ _ _ Hdecl).
  unfold reconcile, walkable in *.
  destruct (truthy env_declarations); cbn [negb orb] in *.
  - destruct (py_iter env_declarations) as [defs |]; [| discriminate].
    destruct (declare_all_walkable environ defs (Gathered [] [] ∅) Hwalk)
      as (acc & Hacc).
    unfold bind, lift. rewrite Hacc.
    now rewrite (apply_overrides_malformed pre bad post _ Hpre Hbad).
  - unfold bind, lift.
    now rewrite (apply_overrides_malformed pre bad post _ Hpre Hbad).
Qed.

Lemma reconcile_raises env_declarations overrides w e :
  fst (reconcile environ env_declarations overrides w) = Raise e ->
  snd (reconcile environ env_declarations overrides w) = w.
Proof.
  unfold reconcile.
  destruct (negb (truthy env_declarations)); unfold bind, lift, ret, raise.
  - destruct (apply_overrides overrides []); simpl; [discriminate | reflexivity].
  - destruct (py_iter env_declarations) as [defs |]; simpl; [| reflexivity].
    destruct (declare_all environ _ defs) as [acc |]; simpl; [| reflexivity].
    destruct (apply_overrides overrides (env_vars acc)) as [d |]; simpl;
      [| reflexivity].
    destruct (missing acc); [| reflexivity].
    destruct d as [| item d]; simpl; [discriminate |].
    unfold bind. simpl. rewrite echo_all_spec. simpl. discriminate.
Qed.

(** X4. Reconciliation is local and all-or-nothing: it sends no request and
    reads no answer from the terminal, whatever its outcome, and when it
    fails it has printed nothing. *)
Theorem reconciliation_is_local yaml_content overrides w :
  let run :=
    gather_environment_variables environ yaml_safe_load yaml_content overrides w
  in
  sent (snd run) = sent w
  /\ answers (snd run) = answers w
  /\ forall e, fst run = Raise e -> snd run = w.
Proof.
  intros run.
  destruct (gather_sent environ yaml_safe_load yaml_content overrides w)
    as [Hsent Hanswers].
  split; [exact Hsent |]. split; [exact Hanswers |]. subst run. intros e.
  unfold gather_environment_variables, bind, lift, ret, raise.
  destruct (yaml_safe_load yaml_content) as [msg | parsed]; simpl; [reflexivity |].
  destruct (py_get parsed "workflow" (PDict [])) as [workflow |]; simpl;
    [| reflexivity].
  destruct (py_get workflow "environment" (PList [])) as [decls |]; simpl;
    [| reflexivity].
  apply reconcile_raises.
Qed.

(** X5. Apart from malformed input, the outcome is decided by the declared
    names the environment does not define: without any, reconciliation
    returns; otherwise, when no override names one of them, it raises the
    error that lists them all in declaration order and suggests the first. *)
Theorem undefined_names_reported yaml_content env_declarations overrides w :
  declares yaml_safe_load yaml_content env_declarations ->
  walkable env_declarations = true ->
  forallb (str_contains "=") overrides = true ->
  Forall (fun item =>
            override_key item
            ∉ undefined_names environ (declared_items env_declarations))
         overrides ->
  match undefined_names environ (declared_items env_declarations) with
  | [] =>
      exists l w',
        gather_environment_variables environ yaml_safe_load yaml_content
          overrides w = (Return l, w')
  | first :: rest =>
      gather_environment_variables environ yaml_safe_load yaml_content
        overrides w
      = (Raise (ClickException (missing_message (first :: rest) first)), w)
  end.
Proof.
  intros Hdecl Hwalk Hov _. rewrite (gather_declares _ _ _ _ _ _ Hdecl).
  unfold walkable, declared_items in *.
  destruct (truthy env_declarations) eqn:Ht; cbn [negb orb] in *.
  - destruct (py_iter env_declarations) as [defs |] eqn:Hit; [| discriminate].
    destruct (declare_all_walkable environ defs (Gathered [] [] ∅) Hwalk)
      as (acc & Hacc).
    destruct (apply_overrides_well_formed overrides (env_vars acc) Hov)
      as (d & Hd).
    rewrite (missing_decided_by_environment environ _ _ _ _ _ w Ht Hit Hacc Hd).
    destruct (declare_all_lists environ _ _ _ Hacc) as [_ ->]. cbn [missing app].
    destruct (undefined_names environ defs); eauto.
  - destruct (apply_overrides_well_formed overrides [] Hov) as (d & Hd).
    unfold reconcile. rewrite Ht. cbn [negb]. unfold bind, lift, ret.
    rewrite Hd. simpl. eauto.
Qed.

End ReconciliationResults.

(** X6. An override is split at its first ["="]: the key is the text before
    it and holds no ["="], the value is all that follows and may hold more
    of them, and the pair is what the override assigns. *)
Theorem override_split item :
  str_contains "=" item = true ->
  exists key value,
    item = (key ++ "=" ++ value)%string
    /\ str_contains "=" key = false
    /\ override_key item = key
    /\ forall d, apply_overrides [item] d = Return (dict_set key value d).
Proof.
  intros H. destruct (str_split1_contains _ _ H) as (k & v & Hsplit & -> & Hk).
  exists k, v. repeat split; [exact Hk | unfold override_key; now rewrite Hsplit |].
  intros d. simpl. rewrite H. cbn [negb]. now rewrite Hsplit.
Qed.

Lemma gathered_names_in_order_witness :
  map var_name
      [EnvVar "LOG_LEVEL" "debug" false; EnvVar "API_KEY" "secret-key-123" true;
       EnvVar "EXTRA" "2" false]
  = insertion_order
      (declared_names
         (declared_items (PList [PStr "LOG_LEVEL"; secret_declaration "API_KEY"]))
       ++ map override_key ["EXTRA=1"; "LOG_LEVEL=debug"; "EXTRA=2"])
  /\ NoDup (map var_name
              [EnvVar "LOG_LEVEL" "debug" false;
               EnvVar "API_KEY" "secret-key-123" true; EnvVar "EXTRA" "2" false]).
Proof.
  eapply (gathered_names_in_order test_environment
            (loads (workflow_doc [PStr "LOG_LEVEL"; secret_declaration "API_KEY"]))
            "" _ ["EXTRA=1"; "LOG_LEVEL=debug"; "EXTRA=2"] (initial [])).
  - exists (workflow_doc [PStr "LOG_LEVEL"; secret_declaration "API_KEY"]).
    eexists. repeat split; reflexivity.
  - vm_compute. reflexivity.
Defined.

Lemma declared_variable_from_environment_witness :
  exists v,
    test_environment !! "API_KEY" = Some v
    /\ (Forall (fun item => override_key item <> "API_KEY") ["EXTRA=1"] ->
        EnvVar "API_KEY" v
          (declared_secret (PList [secret_declaration "API_KEY"]) "API_KEY")
          ∈ [EnvVar "API_KEY" "secret-key-123" true; EnvVar "EXTRA" "1" false]
        /\ forall e,
             e ∈ [EnvVar "API_KEY" "secret-key-123" true; EnvVar "EXTRA" "1" false] ->
             var_name e = "API_KEY" ->
             e = EnvVar "API_KEY" v
                   (declared_secret (PList [secret_declaration "API_KEY"])
                      "API_KEY")).
Proof.
  eapply (declared_variable_from_environment test_environment
            (loads (workflow_doc [secret_declaration "API_KEY"])) ""
            _ ["EXTRA=1"] (initial [])).
  - exists (workflow_doc [secret_declaration "API_KEY"]).
    eexists. repeat split; reflexivity.
  - vm_compute. reflexivity.
  - vm_compute. repeat constructor.
  - discriminate.
Defined.

Lemma malformed_override_rejected_witness :
  gather_environment_variables ∅ (loads (workflow_doc [PStr "LOG_LEVEL"])) ""
    (["A=1"] ++ "oops" :: ["B=2"]) (initial [])
  = (Raise (ClickException "Invalid env format: oops. Use KEY=VALUE"),
     initial []).
Proof.
  apply (malformed_override_rejected ∅ (loads (workflow_doc [PStr "LOG_LEVEL"]))
           "" (PList [PStr "LOG_LEVEL"]) ["A=1"] "oops" ["B=2"] (initial [])).
  - exists (workflow_doc [PStr "LOG_LEVEL"]). eexists. repeat split; reflexivity.
  - reflexivity.
  - reflexivity.
  - reflexivity.
Defined.

Lemma undefined_names_reported_witness :
  gather_environment_variables only_api_key (loads two_secrets) "" ["EXTRA=1"]
    (initial [])
  = (Raise (ClickException (missing_message ["DATABASE_URL"] "DATABASE_URL")),
     initial []).
Proof.
  apply (undefined_names_reported only_api_key (loads two_secrets) ""
           (PList [secret_declaration "API_KEY"; secret_declaration "DATABASE_URL"])
           ["EXTRA=1"] (initial [])).
  - exists two_secrets. eexists. repeat split; reflexivity.
  - reflexivity.
  - reflexivity.
  - repeat constructor. vm_compute. intros H.
    apply elem_of_cons in H. destruct H as [H | H]; [discriminate | inversion H].
Defined.

Lemma override_split_witness :
  exists key value,
    "URL=postgres://db?sslmode=require" = (key ++ "=" ++ value)%string
    /\ str_contains "=" key = false
    /\ override_key "URL=postgres://db?sslmode=require" = key
    /\ forall d,
         apply_overrides ["URL=postgres://db?sslmode=require"] d
         = Return (dict_set key value d).
Proof. apply (override_split "URL=postgres://db?sslmode=require"). reflexivity. Defined.

(** * Further properties of the client and of the commands *)

Section FurtherCommands.

Variable API_BASE_URL : string.
Variable environ : gmap string string.
Variable post : list request -> request -> http_result.

(** X7. The API key of a run: the [--api-key] flag when it is not empty,
    else the variable [ETLR_API_KEY] when it is set and not empty (an empty
    flag falls back to the variable); the client then talks to
    [API_BASE_URL] and nothing is printed.  Without a key the run prints one
    line on standard error and exits with status 1 before any request. *)
Theorem api_key_resolution (flag : option string) (w : world) :
  let run :=
    get_client API_BASE_URL environ (click_option environ flag "ETLR_API_KEY") w
  in
  match resolved_api_key environ flag with
  | Some k => run = (Return (Client k API_BASE_URL), w)
  | None =>
      fst run = Raise (SystemExit 1)
      /\ sent (snd run) = sent w
      /\ answers (snd run) = answers w
      /\ exists line,
           echoed (snd run) = echoed w ++ [line] /\ to_stderr line = true
  end.
Proof.
  unfold resolved_api_key, nonempty, get_client, click_option, try_except, lift,
    WorkflowsClient_init, py_or, os_getenv.
  destruct flag as [f |]; [destruct (String.eqb f "") eqn:Ef |];
    (destruct (environ !! "ETLR_API_KEY") as [k |];
     [destruct (String.eqb k "") eqn:Ek |]);
    do 4 (cbn [of_optional truthy negb]; rewrite ?Ef, ?Ek);
    first [ reflexivity
          | simpl; repeat split; eexists; split; reflexivity ].
Qed.

(** X8. Each of the ten operations of the client prints nothing and reads
    no answer, and either raises the missing-identifier error with nothing
    sent, or sends exactly one request: to the client's base URL, with its
    key in the [X-API-KEY] header and a 30 second timeout, the payload
    naming the operation's action; its outcome is then the one the server's
    answer to that request decides. *)
Theorem operations_send_one_request (self : WorkflowsClient) (yaml : string)
    (env stage_override workflow_id name stage : pyval) (version : Z)
    (w : world) :
  Forall (fun aop : string * M pyval =>
            let run := snd aop w in
            echoed (snd run) = echoed w
            /\ answers (snd run) = answers w
            /\ ((fst run = Raise missing_identifier /\ sent (snd run) = sent w)
                \/ exists payload,
                     sent (snd run) = sent w ++ [client_request self payload]
                     /\ payload_field "action" (client_request self payload)
                        = Some (PStr (fst aop))
                     /\ fst run
                        = response_outcome
                            (post (sent w) (client_request self payload))))
         (client_operations post self yaml env stage_override workflow_id name
                            stage version).
Proof.
  unfold client_operations.
  repeat first [apply List.Forall_cons | apply List.Forall_nil]; cbn [fst snd];
    unfold list_workflows, get_workflow, upsert_workflow, delete_workflow,
      deploy_workflow, stop_workflow, get_status, list_versions, get_version,
      restore_version;
    try (destruct (truthy workflow_id);
         [| destruct (truthy name), (truthy stage)]);
    cbn [andb]; unfold bind, ret, raise; cbn [fst snd];
    (split; [reflexivity |]); (split; [reflexivity |]);
    first [ left; split; reflexivity
          | right; eexists; split; [reflexivity |]; split;
            [first [reflexivity | apply upsert_payload_action] | reflexivity] ].
Qed.

Lemma handle_api_error_stderr {A : Type} message status_code details w :
  exists errors,
    @handle_api_error A message status_code details w
    = (Raise (SystemExit 1), World (echoed w ++ errors) (sent w) (answers w))
    /\ on_stderr errors.
Proof.
  unfold handle_api_error, on_stderr.
  destruct status_code as [code |]; [destruct (truthy (PInt code)) |];
    destruct (truthy details);
    unfold bind, click_echo, ret, sys_exit, raise; cbn [fst snd echoed sent answers];
    rewrite <- ?app_assoc; eexists; (split; [reflexivity |]);
    repeat constructor.
Qed.

Lemma response_outcome_raises (r : http_result) (e : exn) :
  response_outcome r = Raise e ->
  e = AttributeError \/ exists m s d, e = APIError m s d.
Proof.
  destruct r as [reason | ok status text parsed]; simpl.
  - intros [= <-]. right. eauto.
  - destruct ok; simpl; [discriminate |].
    destruct (response_data text parsed); simpl;
      try (intros [= <-]; left; reflexivity).
    intros [= <-]. right. eauto.
Qed.

(** A failed call: status 1, and whatever is printed goes to standard
    error. *)
Lemma failed_call (e : exn) (w : world) :
  e = AttributeError \/ (exists m s d, e = APIError m s d) ->
  let run :=
    match @except_APIError unit e with
    | Some h => h w
    | None => (Raise e, w)
    end in
  exit_code (fst run) = 1
  /\ sent (snd run) = sent w
  /\ answers (snd run) = answers w
  /\ exists errors, echoed (snd run) = echoed w ++ errors /\ on_stderr errors.
Proof.
  intros [-> | (m & s & d & ->)]; simpl.
  - repeat split. exists []. rewrite app_nil_r. split; [reflexivity | constructor].
  - destruct (@handle_api_error_stderr unit m s d w) as (errors & -> & Herr).
    simpl. repeat split. exists errors. auto.
Qed.

Lemma bind_ret_l {A B : Type} (a : A) (k : A -> M B) : bind (ret a) k = k a.
Proof. reflexivity. Qed.

Lemma with_client {A : Type} key client (k : WorkflowsClient -> M A) w :
  WorkflowsClient_init API_BASE_URL environ key None = Return client ->
  bind (get_client API_BASE_URL environ key) k w = k client w.
Proof. intros H. unfold bind. now rewrite (get_client_ok _ _ _ _ w H). Qed.

(** A call made under [except APIError], followed by [k]. *)
Lemma call_then (client : WorkflowsClient) (payload : pyval)
    (k : pyval -> M unit) (w : world) :
  let req := client_request client payload in
  let w1 := World (echoed w) (sent w ++ [req]) (answers w) in
  try_except (bind (_request post client payload) k) except_APIError w
  = match response_outcome (post (sent w) req) with
    | Return data => try_except (k data) except_APIError w1
    | Raise e =>
        match except_APIError e with
        | Some h => h w1
        | None => (Raise e, w1)
        end
    end.
Proof.
  unfold try_except, bind, _request, client_request. cbn [fst snd].
  destruct (response_outcome _); reflexivity.
Qed.

(** X9. The commands [list], [get], [start], [stop] and [get-version], run
    with a usable API key, read no answer from the terminal.  When the
    identifier does not resolve, the command sends nothing and exits with
    status 1.  Otherwise it sends exactly the one request of its operation;
    if the server answers with a success, the command returns after printing
    its confirmation line, if it has one, and the JSON of the answer as the
    last line; if not, it exits with status 1 and prints on standard error
    only. *)
Theorem simple_command_run (key : option string) (c : simple_command)
    (client : WorkflowsClient) (w : world) :
  WorkflowsClient_init API_BASE_URL environ key None = Return client ->
  let run := run_command API_BASE_URL environ post key c w in
  let failed :=
    exit_code (fst run) = 1
    /\ exists errors, echoed (snd run) = echoed w ++ errors /\ on_stderr errors in
  answers (snd run) = answers w
  /\ match command_payload c with
     | None => sent (snd run) = sent w /\ failed
     | Some payload =>
         let req := client_request client payload in
         sent (snd run) = sent w ++ [req]
         /\ match response_outcome (post (sent w) req) with
            | Return data =>
                fst run = Return tt
                /\ echoed (snd run) = echoed w ++ banner c ++ [format_output data]
            | Raise _ => failed
            end
     end.
Proof.
  intros Hclient run failed. subst failed run.
  assert (forall payload (k : pyval -> M unit) lines,
            (forall data w1,
               try_except (k data) except_APIError w1
               = (Return tt,
                  World (echoed w1 ++ lines ++ [format_output data]) (sent w1)
                        (answers w1))) ->
            let run := try_except (bind (_request post client payload) k)
                                  except_APIError w in
            let req := client_request client payload in
            answers (snd run) = answers w
            /\ sent (snd run) = sent w ++ [req]
            /\ match response_outcome (post (sent w) req) with
               | Return data =>
                   fst run = Return tt
                   /\ echoed (snd run) = echoed w ++ lines ++ [format_output data]
               | Raise _ =>
                   exit_code (fst run) = 1
                   /\ exists errors,
                        echoed (snd run) = echoed w ++ errors /\ on_stderr errors
               end) as Hcall.
  { intros payload k lines Hk run req. subst run req. rewrite call_then.
    destruct (response_outcome _) as [data | e] eqn:Hr.
    - rewrite Hk. simpl. auto.
    - apply response_outcome_raises in Hr.
      destruct (failed_call e (World (echoed w) (sent w ++ [client_request client payload])
                                     (answers w)) Hr)
        as (Hexit & Hsent & Hanswers & Herr).
      cbn [echoed sent answers] in *. auto. }
  assert (forall (k : pyval -> M unit),
            let run := try_except (bind (raise missing_identifier) k)
                                  except_APIError w in
            answers (snd run) = answers w
            /\ sent (snd run) = sent w
            /\ exit_code (fst run) = 1
            /\ exists errors,
                 echoed (snd run) = echoed w ++ errors /\ on_stderr errors)
    as Hmissing.
  { intros k run. subst run.
    destruct (failed_call missing_identifier w) as (He & Hs & Ha & Herr).
    - right. unfold missing_identifier. eauto.
    - auto. }
  destruct c as [| i n s | i n s | i n s | i v];
    cbn [run_command command_payload banner];
    unfold list_workflows_cmd, get, start, stop, get_version_cmd;
    rewrite (with_client key client _ w Hclient);
    unfold list_workflows, get_workflow, deploy_workflow, stop_workflow,
      get_version, identifier_policy;
    try (destruct (truthy (of_optional i));
         [| destruct (truthy (of_optional n)), (truthy (of_optional s))]);
    cbn [andb identified_payload];
    try apply Hmissing;
    rewrite ?bind_ret_l; cbv beta;
    match goal with
    | |- context [echoed w ++ ?lines ++ _] => refine (Hcall _ _ lines _)
    end;
    intros data w1; unfold try_except, bind, click_echo; cbn [fst snd echoed];
    rewrite <- ?app_assoc; reflexivity.
Qed.

Lemma bind_same {A : Type} (m : M A) (k1 k2 : A -> M unit) (w : world) :
  (forall a w0,
     fst (k1 a w0) = fst (k2 a w0)
     /\ sent (snd (k1 a w0)) = sent (snd (k2 a w0))
     /\ answers (snd (k1 a w0)) = answers (snd (k2 a w0))) ->
  fst (bind m k1 w) = fst (bind m k2 w)
  /\ sent (snd (bind m k1 w)) = sent (snd (bind m k2 w))
  /\ answers (snd (bind m k1 w)) = answers (snd (bind m k2 w)).
Proof. intros H. unfold bind. destruct (m w) as [[a | e] w0]; auto. Qed.

Lemma same_after_failure (e : exn) (w1 w2 : world) :
  sent w1 = sent w2 -> answers w1 = answers w2 ->
  let a := match @except_APIError unit e with
           | Some h => h w1
           | None => (Raise e, w1)
           end in
  let b := match @except_APIError unit e with
           | Some h => h w2
           | None => (Raise e, w2)
           end in
  fst a = fst b /\ sent (snd a) = sent (snd b) /\ answers (snd a) = answers (snd b).
Proof.
  intros Hs Ha. destruct e; simpl; auto.
  destruct (@handle_api_error_stderr unit message status_code details w1)
    as (e1 & -> & _).
  destruct (@handle_api_error_stderr unit message status_code details w2)
    as (e2 & -> & _).
  simpl. auto.
Qed.

Lemma start_deployment_as_start client workflow_id name stage w :
  let deploying := start_deployment post client workflow_id name stage w in
  let starting :=
    try_except
      (result <- deploy_workflow post client workflow_id name stage ;;
       click_echo (styled false "green" [Lit "✓ Workflow started"]) ;;;
       click_echo (format_output result))
      except_APIError w in
  fst deploying = fst starting
  /\ sent (snd deploying) = sent (snd starting)
  /\ answers (snd deploying) = answers (snd starting).
Proof.
  unfold start_deployment, deploy_workflow, try_except, bind, click_echo, ret,
    _request.
  cbn [fst snd echoed sent answers].
  destruct (truthy workflow_id); [| destruct (truthy name && truthy stage)];
    cbn [fst snd echoed sent answers];
    try (destruct (response_outcome _) as [data | e];
         cbn [fst snd echoed sent answers]; [auto |]);
    first [ apply same_after_failure; reflexivity
          | apply (same_after_failure missing_identifier); reflexivity ].
Qed.







Lemma answers_after_client {A : Type} key (k : WorkflowsClient -> M A) w :
  (forall client w0, answers (snd (k client w0)) = answers w0) ->
  answers (snd (bind (get_client API_BASE_URL environ key) k w)) = answers w.
Proof.
  intros Hk. pose proof (quiet_get_client API_BASE_URL environ key w) as [_ Ha].
  unfold bind. destruct (get_client API_BASE_URL environ key w) as [[c | e] w0];
    cbn [snd] in *; [rewrite Hk |]; exact Ha.
Qed.

Lemma answers_after_call (op : M pyval) (k : pyval -> M unit) w :
  (forall w0, answers (snd (op w0)) = answers w0) ->
  (forall a, quiet (k a)) ->
  answers (snd (try_except (bind op k) except_APIError w)) = answers w.
Proof.
  intros Hop Hk.
  pose proof (try_quiet_sent (bind op k) except_APIError w
                (@quiet_except_APIError unit)) as [_ ->].
  pose proof (bind_quiet_sent op k w Hk) as [_ ->]. apply Hop.
Qed.

(** X15. Confirmation without a user: with [--yes], [delete] and [restore]
    read no answer from the terminal; without it and with no input left
    ([click.confirm] raises [Abort]), both end with status 1 and send
    nothing. *)
Theorem unattended_confirmation (key workflow_id name stage : option string)
    (restore_id : string) (version : Z) (w : world) :
  let deleting := delete API_BASE_URL environ post key workflow_id name stage in
  let restoring := restore API_BASE_URL environ post key restore_id version in
  (answers (snd (deleting true w)) = answers w
   /\ answers (snd (restoring true w)) = answers w)
  /\ (answers w = [] ->
      (fst (deleting false w) = Raise Abort
       /\ exit_code (fst (deleting false w)) = 1
       /\ sent (snd (deleting false w)) = sent w)
      /\ (fst (restoring false w) = Raise Abort
          /\ exit_code (fst (restoring false w)) = 1
          /\ sent (snd (restoring false w)) = sent w)).
Proof.
  intros deleting restoring. subst deleting restoring. split; [split |].
  - unfold delete. cbn [negb]. rewrite bind_ret_l. cbn [negb].
    apply answers_after_client. intros client w0. apply answers_after_call.
    + intros w1. unfold delete_workflow.
      destruct (truthy (of_optional workflow_id));
        [| destruct (truthy (of_optional name) && truthy (of_optional stage))];
        reflexivity.
    + intros result. apply quiet_bind; intros; apply quiet_echo.
  - unfold restore. cbn [negb]. rewrite bind_ret_l. cbn [negb].
    apply answers_after_client. intros client w0. apply answers_after_call.
    + reflexivity.
    + intros result. apply quiet_report_restored.
  - intros Hnone. unfold delete, restore, bind, click_confirm. cbn [negb].
    rewrite Hnone. cbn. auto 10.
Qed.

(** X16. [restore --yes], run with a usable key and answered with a JSON
    object, sends its one request and prints that the workflow was restored;
    then, without a [workflow] field it prints the JSON; with an object
    there it prints the new version number if the object has a truthy
    [version], and the JSON last; with any other value there (such as null)
    it fails with an [AttributeError], after the line that reports the
    restore. *)
Theorem restore_report (key : option string) (workflow_id : string)
    (version : Z) (client : WorkflowsClient) (d : list (string * pyval))
    (w : world) :
  WorkflowsClient_init API_BASE_URL environ key None = Return client ->
  let req :=
    client_request client
      (PDict [("action", PStr "restore_version");
              ("workflow_id", PStr workflow_id); ("version", PInt version)]) in
  response_outcome (post (sent w) req) = Return (PDict d) ->
  let run := restore API_BASE_URL environ post key workflow_id version true w in
  let restored :=
    styled false "green"
      [Lit "✓ Workflow restored to version "; Str (PInt version)] in
  sent (snd run) = sent w ++ [req]
  /\ match dict_get "workflow" d with
     | None =>
         fst run = Return tt
         /\ echoed (snd run) = echoed w ++ [restored; format_output (PDict d)]
     | Some (PDict workflow) =>
         let new_version :=
           match dict_get "version" workflow with
           | Some v => v
           | None => PNone
           end in
         fst run = Return tt
         /\ echoed (snd run)
            = echoed w
              ++ [restored]
              ++ (if truthy new_version
                  then [Echo false None
                          [Lit "New version created: "; Str new_version]]
                  else [])
              ++ [format_output (PDict d)]
     | Some _ =>
         fst run = Raise AttributeError
         /\ exit_code (fst run) = 1
         /\ echoed (snd run) = echoed w ++ [restored]
     end.
Proof.
  intros Hc req Hr run restored. subst run req restored. unfold restore.
  cbn [negb]. rewrite bind_ret_l. cbn [negb].
  rewrite (with_client key client _ w Hc). unfold restore_version.
  rewrite call_then. cbv zeta. rewrite Hr. unfold report_restored.
  destruct (dict_get "workflow" d) as [workflow |].
  - destruct workflow as [| b | z | t | items | wf];
      try (split; [reflexivity |]; repeat split; reflexivity).
    unfold try_except, bind, lift, click_echo, ret.
    cbn [py_get fst snd echoed sent answers].
    destruct (truthy (match dict_get "version" wf with
                      | Some x => x | None => PNone end));
      cbn [fst snd echoed sent answers]; repeat split;
      rewrite <- ?app_assoc; reflexivity.
  - split; [reflexivity |]. split; [reflexivity |].
    cbn. rewrite <- ?app_assoc. reflexivity.
Qed.

Section DeployByIdentifier.

Variable yaml_safe_load : string -> string + pyval.
Variable path_exists : string -> bool.
Variable read_text : string -> string + string.

(** The function [deploy], given an identifier and no file, is the function
    [start] at the same arguments. *)
Lemma deploy_as_start
    (key yaml_file workflow_id name stage : option string) (env : list string)
    (w : world) :
  file_based yaml_file workflow_id name = false ->
  same_effect
    (deploy API_BASE_URL environ post yaml_safe_load path_exists read_text
            key yaml_file workflow_id name stage env w)
    (start API_BASE_URL environ post key workflow_id name stage w).
Proof.
  intros Hfb. unfold same_effect, deploy, start. unfold file_based in Hfb.
  rewrite Hfb. apply bind_same. intros client w0. rewrite bind_ret_l.
  apply start_deployment_as_start.
Qed.

(** X10. The command [deploy] with [--id], or with [--name] and no file,
    behaves as the command [start] run with the stage that [deploy]
    resolves, its [--stage] flag or else [ETLR_STAGE]: the same outcome and
    exit status, the same requests, no question asked; no file is looked for
    or read, and [--env] is ignored.  On one command line the two commands
    therefore agree when [--id] is given, when [--stage] is given, or when
    [ETLR_STAGE] is unset or empty; the [--stage] of [start] does not read
    the variable. *)
Theorem deploy_by_identifier_is_start
    (api_key_flag yaml_file id_flag name_flag stage_flag : option string)
    (env : list string) (w : world) :
  file_based yaml_file id_flag name_flag = false ->
  let deploying :=
    cli_deploy API_BASE_URL environ post yaml_safe_load path_exists read_text
               api_key_flag yaml_file id_flag name_flag stage_flag env w in
  let starting stage :=
    cli_start API_BASE_URL environ post api_key_flag id_flag name_flag stage w in
  yaml_file = None
  /\ same_effect deploying
       (starting (click_option environ stage_flag "ETLR_STAGE"))
  /\ (truthy (of_optional id_flag) = true
      \/ stage_flag <> None
      \/ nonempty (environ !! "ETLR_STAGE") = None ->
      same_effect deploying (starting stage_flag)).
Proof.
  intros Hfb deploying starting. subst deploying starting.
  split. { destruct yaml_file; [discriminate | reflexivity]. }
  unfold cli_deploy, cli_start.
  split; [apply deploy_as_start, Hfb |].
  intros Hsame.
  assert (start API_BASE_URL environ post
                (click_option environ api_key_flag "ETLR_API_KEY") id_flag
                name_flag stage_flag w
          = start API_BASE_URL environ post
                  (click_option environ api_key_flag "ETLR_API_KEY") id_flag
                  name_flag (click_option environ stage_flag "ETLR_STAGE") w)
    as ->; [| apply deploy_as_start, Hfb].
  destruct Hsame as [Hid | [Hflag | Hvar]].
  - unfold start, deploy_workflow. rewrite Hid. reflexivity.
  - destruct stage_flag; [reflexivity | contradiction].
  - destruct stage_flag; [reflexivity |].
    unfold click_option, os_getenv. unfold nonempty in Hvar.
    destruct (environ !! "ETLR_STAGE") as [v |]; [| reflexivity].
    cbn [truthy]. destruct (String.eqb v ""); [reflexivity | discriminate].
Qed.

Lemma apply_overrides_no_exit overrides d e c :
  apply_overrides overrides d = Raise e -> e <> SystemExit c.
Proof.
  revert d. induction overrides as [| item rest IH]; intros d; simpl;
    [discriminate |].
  destruct (negb (str_contains "=" item)); [intros [= <-]; discriminate |].
  destruct (str_split1 "=" item) as [| k [| v [| x l]]];
    try (intros [= <-]; discriminate).
  apply IH.
Qed.

Lemma declare_all_no_exit defs acc e c :
  declare_all environ acc defs = Raise e -> e <> SystemExit c.
Proof.
  revert acc. induction defs as [| env_def rest IH]; intros acc; simpl;
    [discriminate |].
  destruct (declare environ acc env_def) as [acc1 | e1] eqn:Hd; [apply IH |].
  intros [= <-]. unfold declare in Hd.
  destruct (negb (truthy (entry_name env_def))); [discriminate |].
  destruct (entry_name env_def); try (injection Hd as <-; discriminate).
  destruct (os_getenv environ s); discriminate.
Qed.

Lemma gather_no_exit content overrides w e c :
  fst (gather_environment_variables environ yaml_safe_load content overrides w)
  = Raise e ->
  e <> SystemExit c.
Proof.
  unfold gather_environment_variables, bind, lift, ret, raise.
  destruct (yaml_safe_load content) as [msg | parsed]; simpl;
    [intros [= <-]; discriminate |].
  destruct (py_get parsed "workflow" (PDict [])) as [workflow |] eqn:H1; simpl.
  2: { intros [= <-]. destruct parsed; simpl in H1; try injection H1 as <-;
       discriminate. }
  destruct (py_get workflow "environment" (PList [])) as [decls |] eqn:H2; simpl.
  2: { intros [= <-]. destruct workflow; simpl in H2; try injection H2 as <-;
       discriminate. }
  unfold reconcile.
  destruct (negb (truthy decls)); unfold bind, lift, ret, raise.
  - destruct (apply_overrides overrides []) eqn:Ho; simpl; [discriminate |].
    intros [= <-]. eapply apply_overrides_no_exit, Ho.
  - destruct (py_iter decls) as [defs |] eqn:Hit; simpl.
    2: { intros [= <-]. destruct decls; simpl in Hit; try injection Hit as <-;
         discriminate. }
    destruct (declare_all environ _ defs) as [acc |] eqn:Hacc; simpl.
    2: { intros [= <-]. eapply declare_all_no_exit, Hacc. }
    destruct (apply_overrides overrides (env_vars acc)) as [d |] eqn:Ho; simpl.
    2: { intros [= <-]. eapply apply_overrides_no_exit, Ho. }
    destruct (missing acc); [| intros [= <-]; discriminate].
    destruct d as [| item d]; simpl; [discriminate |].
    unfold bind. simpl. rewrite echo_all_spec. simpl. discriminate.
Qed.

Lemma prepare_returns_inv yaml_file env w content env_dict w1 :
  prepare environ yaml_safe_load path_exists read_text yaml_file env w
  = (Return (content, env_dict), w1) ->
  exists path,
    deploy_file path_exists yaml_file = Some path
    /\ read_text path = inr content
    /\ gather_environment_variables environ yaml_safe_load content env w
       = (Return env_dict, w1).
Proof.
  unfold prepare, deploy_file.
  assert (forall path,
            (bind (match read_text path with
                   | inr c => ret c
                   | inl e =>
                       click_echo (styled true "red" [Lit ("Error reading file: " ++ e)]) ;;;
                       sys_exit 1
                   end)
                  (fun yaml_content =>
                     env_dict <-
                       try_except
                         (gather_environment_variables environ yaml_safe_load
                            yaml_content env)
                         (fun e =>
                            match e with
                            | ClickException message =>
                                Some (click_echo (styled true "red"
                                                    [Lit ("Error: " ++ message)]) ;;;
                                      sys_exit 1)
                            | _ => None
                            end) ;;
                     ret (yaml_content, env_dict)) w
             = (Return (content, env_dict), w1)) ->
            read_text path = inr content
            /\ gather_environment_variables environ yaml_safe_load content env w
               = (Return env_dict, w1)) as Hrest.
  { intros path. destruct (read_text path) as [msg | c];
      unfold bind, try_except, ret, sys_exit, raise, click_echo; simpl;
      [discriminate |].
    destruct (gather_environment_variables environ yaml_safe_load c env w)
      as [[l | e] w0] eqn:Hg; simpl.
    - intros [= <- <- <-]. auto.
    - destruct e; simpl; discriminate. }
  destruct yaml_file as [file |].
  - rewrite bind_ret_l. intros H. exists file. split; [reflexivity |].
    apply Hrest, H.
  - destruct (path_exists "workflow.yaml"); cbn [negb].
    + rewrite bind_ret_l. intros H. exists "workflow.yaml".
      split; [reflexivity |]. apply Hrest, H.
    + unfold bind, click_echo, sys_exit, raise. simpl. discriminate.
Qed.

Lemma prepare_fails yaml_file env w :
  deploy_file path_exists yaml_file = None
  \/ (exists path reason,
        deploy_file path_exists yaml_file = Some path
        /\ read_text path = inl reason)
  \/ (exists path content e,
        deploy_file path_exists yaml_file = Some path
        /\ read_text path = inr content
        /\ fst (gather_environment_variables environ yaml_safe_load content env w)
           = Raise e) ->
  exists e w',
    prepare environ yaml_safe_load path_exists read_text yaml_file env w
    = (Raise e, w')
    /\ exit_code (@Raise unit e) = 1.
Proof.
  intros H.
  destruct (prepare environ yaml_safe_load path_exists read_text yaml_file env w)
    as [[[content env_dict] | e] w'] eqn:Hp.
  - exfalso. apply prepare_returns_inv in Hp.
    destruct Hp as (path & Hfile & Hread & Hg).
    destruct H as [H | [(p & r & Hf & Hr) | (p & c & e & Hf & Hr & He)]];
      try congruence.
    rewrite Hfile in Hf. injection Hf as <-. rewrite Hread in Hr.
    injection Hr as <-. rewrite Hg in He. discriminate.
  - exists e, w'. split; [reflexivity |].
    clear H. revert Hp. unfold prepare.
    destruct yaml_file as [file |]; [| destruct (path_exists "workflow.yaml")];
      cbn [negb]; unfold bind, ret, click_echo, sys_exit, raise, try_except;
      cbn [fst snd];
      try (intros [= <- _]; reflexivity);
      (match goal with
       | |- context [read_text ?p] => destruct (read_text p)
       end; [intros [= <- _]; reflexivity |];
       match goal with
       | |- context [gather_environment_variables ?a ?b ?c ?d ?x] =>
           destruct (gather_environment_variables a b c d x)
             as [[l | e0] w0] eqn:Hg
       end; [discriminate |];
       destruct e0; cbn [fst snd]; intros [= <- _]; try reflexivity;
       exfalso; eapply gather_no_exit; [rewrite Hg |]; reflexivity).
Qed.

Lemma get_client_cases key w :
  (exists client,
     WorkflowsClient_init API_BASE_URL environ key None = Return client)
  \/ exists w',
       get_client API_BASE_URL environ key w = (Raise (SystemExit 1), w')
       /\ sent w' = sent w /\ answers w' = answers w.
Proof.
  destruct (WorkflowsClient_init API_BASE_URL environ key None)
    as [client | e] eqn:Hinit; [left; eauto | right].
  assert (e = no_api_key) as ->.
  { revert Hinit. unfold WorkflowsClient_init.
    cbv zeta.
    repeat match goal with
           | |- context [match ?x with _ => _ end] => destruct x
           end;
      first [discriminate | intros [= <-]; reflexivity]. }
  unfold get_client, try_except, lift. rewrite Hinit. cbn. eauto.
Qed.

Lemma response_outcome_returns (r : http_result) (data : pyval) :
  response_outcome r = Return data ->
  exists status text parsed, r = Response true status text parsed.
Proof.
  destruct r as [reason | ok status text parsed]; simpl; [discriminate |].
  destruct ok; [eauto |]. simpl.
  destruct (py_get _ "error" _); [| discriminate].
  destruct (py_get _ "details" _); discriminate.
Qed.

Lemma start_deployment_returns client workflow_id name stage w :
  truthy workflow_id = true ->
  fst (start_deployment post client workflow_id name stage w) = Return tt ->
  exists status text parsed,
    post (sent w) (deploy_request client workflow_id)
    = Response true status text parsed.
Proof.
  intros Hid. unfold start_deployment, deploy_workflow. rewrite Hid.
  rewrite bind_ret_l.
  unfold try_except, bind, click_echo, _request. cbn [fst snd echoed sent answers].
  destruct (response_outcome _) as [data | e] eqn:Hr.
  - intros _. exact (response_outcome_returns _ _ Hr).
  - cbn [fst snd]. destruct e; cbn [except_APIError fst]; try discriminate.
    rewrite handle_api_error_exits. discriminate.
Qed.

(** X11. A file-based [deploy] that cannot prepare its request exits with
    status 1 before any request and any question: when no file is given and
    [workflow.yaml] does not exist, when the file cannot be read, or when
    the reconciliation of the environment fails. *)
Theorem deploy_fails_before_network
    (key yaml_file workflow_id name stage : option string) (env : list string)
    (w : world) :
  file_based yaml_file workflow_id name = true ->
  deploy_file path_exists yaml_file = None
  \/ (exists path reason,
        deploy_file path_exists yaml_file = Some path
        /\ read_text path = inl reason)
  \/ (exists path content e,
        deploy_file path_exists yaml_file = Some path
        /\ read_text path = inr content
        /\ fst (gather_environment_variables environ yaml_safe_load content env w)
           = Raise e) ->
  let run :=
    deploy API_BASE_URL environ post yaml_safe_load path_exists read_text
           key yaml_file workflow_id name stage env w in
  exit_code (fst run) = 1
  /\ sent (snd run) = sent w
  /\ answers (snd run) = answers w.
Proof.
  intros Hfb Hlocal run. subst run.
  destruct (get_client_cases key w) as [(client & Hc) | (w' & Hg & Hs & Ha)].
  - destruct (prepare_fails yaml_file env w Hlocal) as (e & w' & Hp & Hexit).
    destruct (deploy_stops_before_network API_BASE_URL environ post
                yaml_safe_load path_exists read_text key yaml_file workflow_id
                name stage env w client e w' Hfb Hc Hp) as [-> Hsent].
    cbn [fst snd]. split; [exact Hexit |]. split; [exact Hsent |].
    pose proof (quiet_prepare environ yaml_safe_load path_exists read_text
                  yaml_file env w) as [_ Hanswers].
    rewrite Hp in Hanswers. exact Hanswers.
  - unfold deploy, bind. rewrite Hg. cbn. auto.
Qed.

(** X12. A file-based [deploy] that returns normally (exit status 0) has
    stored and started the workflow: the file was read and the environment
    reconciled, exactly two requests were sent, the upsert and then the
    deploy request for the id of the upsert's answer, and the server answered
    both with a success. *)
Theorem successful_deploy_stored_and_started
    (key yaml_file workflow_id name stage : option string) (env : list string)
    (w : world) :
  file_based yaml_file workflow_id name = true ->
  let run :=
    deploy API_BASE_URL environ post yaml_safe_load path_exists read_text
           key yaml_file workflow_id name stage env w in
  fst run = Return tt ->
  exists client path content env_dict stored_id,
    WorkflowsClient_init API_BASE_URL environ key None = Return client
    /\ deploy_file path_exists yaml_file = Some path
    /\ read_text path = inr content
    /\ fst (gather_environment_variables environ yaml_safe_load content env w)
       = Return env_dict
    /\ truthy stored_id = true
    /\ let up := upsert_request client content env_dict stage in
       let dep := deploy_request client stored_id in
       sent (snd run) = sent w ++ [up; dep]
       /\ (exists status text parsed,
             post (sent w) up = Response true status text parsed
             /\ exists info,
                  py_get (response_data text parsed) "workflow" (PDict [])
                  = Return info
                  /\ py_get info "id" PNone = Return stored_id)
       /\ (exists status text parsed,
             post (sent w ++ [up]) dep = Response true status text parsed).
Proof.
  intros Hfb run Hrun. subst run.
  destruct (get_client_cases key w) as [(client & Hc) | (w' & Hg & _)].
  2: { exfalso. revert Hrun. unfold deploy, bind. rewrite Hg. discriminate. }
  destruct (prepare environ yaml_safe_load path_exists read_text yaml_file env w)
    as [[[content env_dict] | e] w1] eqn:Hp.
  2: { exfalso.
       destruct (deploy_stops_before_network API_BASE_URL environ post
                   yaml_safe_load path_exists read_text key yaml_file
                   workflow_id name stage env w client e w1 Hfb Hc Hp)
         as [Heq _].
       rewrite Heq in Hrun. discriminate. }
  destruct (prepare_returns_inv _ _ _ _ _ _ Hp) as (path & Hfile & Hread & Hg).
  pose proof (deploy_from_file API_BASE_URL environ post yaml_safe_load
                path_exists read_text key yaml_file workflow_id name stage env
                w client path content env_dict w1 Hfb Hc Hfile Hread Hg) as Heq.
  rewrite Heq in Hrun |- *. clear Heq.
  pose proof (push_sent post client content env_dict stage w1)
    as Hpushed.
  unfold bind in Hrun |- *.
  destruct (push post client content env_dict stage w1)
    as [[[[stored_id n0] s0] | e] w2] eqn:Hpush; [| discriminate].
  cbn [fst snd] in *.
  destruct (push_returns post _ _ _ _ _ _ _ _ _ Hpush)
    as (status & text & parsed & info & Hup & Hinfo & Hid & Htruthy).
  destruct (gather_sent environ yaml_safe_load content env w) as [Hsent1 _].
  rewrite Hg in Hsent1. cbn [snd] in Hsent1. rewrite Hsent1 in *.
  destruct (start_deployment_returns _ _ _ _ _ Htruthy Hrun)
    as (status2 & text2 & parsed2 & Hdep).
  exists client, path, content, env_dict, stored_id.
  rewrite Hg. repeat (split; [first [assumption | reflexivity] |]).
  cbv zeta. split.
  - rewrite (start_deployment_by_id post _ _ _ _ _ Htruthy).
    rewrite Hpushed, <- app_assoc. reflexivity.
  - split; [eauto 10 |]. rewrite Hpushed in Hdep. eauto.
Qed.

End DeployByIdentifier.

End FurtherCommands.

Lemma simple_command_run_witness :
  let c := CmdStart (Some "123") None None in
  let run := run_command "https://api" ∅ sample_server (Some "test-key") c
                         (initial []) in
  let failed :=
    exit_code (fst run) = 1
    /\ exists errors,
         echoed (snd run) = echoed (initial []) ++ errors /\ on_stderr errors in
  answers (snd run) = answers (initial [])
  /\ match command_payload c with
     | None => sent (snd run) = sent (initial []) /\ failed
     | Some payload =>
         let req := client_request sample_client payload in
         sent (snd run) = sent (initial []) ++ [req]
         /\ match response_outcome (sample_server (sent (initial [])) req) with
            | Return data =>
                fst run = Return tt
                /\ echoed (snd run)
                   = echoed (initial []) ++ banner c ++ [format_output data]
            | Raise _ => failed
            end
     end.
Proof.
  exact (simple_command_run "https://api" ∅ sample_server (Some "test-key")
           (CmdStart (Some "123") None None) sample_client (initial [])
           eq_refl).
Defined.

Lemma deploy_by_identifier_is_start_witness :
  let deploying :=
    cli_deploy "https://api" production sample_server (loads plain_doc) no_files
               sample_files (Some "test-key") None None (Some "wf") None ["A=1"]
               (initial []) in
  let starting stage :=
    cli_start "https://api" production sample_server (Some "test-key") None
              (Some "wf") stage (initial []) in
  @None string = None
  /\ same_effect deploying
       (starting (click_option production None "ETLR_STAGE"))
  /\ (truthy (of_optional None) = true
      \/ @None string <> None
      \/ nonempty (production !! "ETLR_STAGE") = None ->
      same_effect deploying (starting None)).
Proof.
  exact (deploy_by_identifier_is_start "https://api" production sample_server
           (loads plain_doc) no_files sample_files (Some "test-key") None None
           (Some "wf") None ["A=1"] (initial []) eq_refl).
Defined.

(** Where the two commands part: with [ETLR_STAGE=prod], [deploy --name wf]
    deploys the pair [wf], [prod] while [start --name wf] has no stage, sends
    nothing and exits with status 1; with [--stage prod] given to both, they
    send the same request. *)
Example deploy_reads_stage_variable :
  let deploying stage_flag :=
    cli_deploy "https://api" production sample_server (loads plain_doc) no_files
               sample_files (Some "test-key") None None (Some "wf") stage_flag []
               (initial []) in
  let starting stage_flag :=
    cli_start "https://api" production sample_server (Some "test-key") None
              (Some "wf") stage_flag (initial []) in
  let request :=
    client_request sample_client
      (PDict [("action", PStr "deploy"); ("name", PStr "wf");
              ("stage", PStr "prod")]) in
  sent (snd (deploying None)) = [request]
  /\ exit_code (fst (deploying None)) = 0
  /\ sent (snd (starting None)) = []
  /\ exit_code (fst (starting None)) = 1
  /\ sent (snd (deploying (Some "prod"))) = [request]
  /\ sent (snd (starting (Some "prod"))) = [request].
Proof. repeat split; vm_compute; reflexivity. Qed.

Lemma deploy_fails_before_network_witness :
  let run :=
    deploy "https://api" ∅ sample_server (loads plain_doc) no_files sample_files
           (Some "test-key") None None None None [] (initial []) in
  exit_code (fst run) = 1
  /\ sent (snd run) = sent (initial [])
  /\ answers (snd run) = answers (initial []).
Proof.
  apply (deploy_fails_before_network "https://api" ∅ sample_server
           (loads plain_doc) no_files sample_files (Some "test-key") None None
           None None [] (initial [])).
  - reflexivity.
  - left. reflexivity.
Defined.

Lemma successful_deploy_stored_and_started_witness :
  let run :=
    deploy "https://api" ∅ sample_server (loads plain_doc) no_files sample_files
           (Some "test-key") (Some "workflow.yaml") None None None []
           (initial []) in
  exists client path content env_dict stored_id,
    WorkflowsClient_init "https://api" ∅ (Some "test-key") None = Return client
    /\ deploy_file no_files (Some "workflow.yaml") = Some path
    /\ sample_files path = inr content
    /\ fst (gather_environment_variables ∅ (loads plain_doc) content []
              (initial [])) = Return env_dict
    /\ truthy stored_id = true
    /\ let up := upsert_request client content env_dict None in
       let dep := deploy_request client stored_id in
       sent (snd run) = sent (initial []) ++ [up; dep]
       /\ (exists status text parsed,
             sample_server (sent (initial [])) up
             = Response true status text parsed
             /\ exists info,
                  py_get (response_data text parsed) "workflow" (PDict [])
                  = Return info
                  /\ py_get info "id" PNone = Return stored_id)
       /\ (exists status text parsed,
             sample_server (sent (initial []) ++ [up]) dep
             = Response true status text parsed).
Proof.
  apply (successful_deploy_stored_and_started "https://api" ∅ sample_server
           (loads plain_doc) no_files sample_files (Some "test-key")
           (Some "workflow.yaml") None None None [] (initial [])).
  - reflexivity.
  - vm_compute. reflexivity.
Defined.



Lemma restore_report_witness :
  let d := [("workflow", PDict [("version", PInt 4)])] in
  let server (history : list request) (req : request) :=
    Response true 200 "" (Some (PDict d)) in
  let req :=
    client_request sample_client
      (PDict [("action", PStr "restore_version");
              ("workflow_id", PStr "123"); ("version", PInt 2)]) in
  let run := restore "https://api" ∅ server (Some "test-key") "123" 2 true
                     (initial []) in
  let restored :=
    styled false "green" [Lit "✓ Workflow restored to version "; Str (PInt 2)] in
  sent (snd run) = sent (initial []) ++ [req]
  /\ match dict_get "workflow" d with
     | None =>
         fst run = Return tt
         /\ echoed (snd run)
            = echoed (initial []) ++ [restored; format_output (PDict d)]
     | Some (PDict workflow) =>
         let new_version :=
           match dict_get "version" workflow with
           | Some v => v
           | None => PNone
           end in
         fst run = Return tt
         /\ echoed (snd run)
            = echoed (initial [])
              ++ [restored]
              ++ (if truthy new_version
                  then [Echo false None
                          [Lit "New version created: "; Str new_version]]
                  else [])
              ++ [format_output (PDict d)]
     | Some _ =>
         fst run = Raise AttributeError
         /\ exit_code (fst run) = 1
         /\ echoed (snd run) = echoed (initial []) ++ [restored]
     end.
Proof.
  exact (restore_report "https://api" ∅
           (fun _ _ =>
              Response true 200 ""
                (Some (PDict [("workflow", PDict [("version", PInt 4)])])))
           (Some "test-key") "123" 2 sample_client
           [("workflow", PDict [("version", PInt 4)])] (initial [])
           eq_refl eq_refl).
Defined.
